(** * MetaMCP client connection manager

    A shallow embedding of [apps/backend/src/lib/metamcp/client.ts]:
    the address normalizer [transformDockerUrl], the transport factory
    [createMetaMcpClient] and the connection establisher
    [connectMetaMcpClient], followed by the properties of the three.

    Conventions of the embedding.
    - A JavaScript string is a [string]; an optional or nullable field is an
      [option] ([None] stands for both [undefined] and [null], which the
      source never tells apart: it only tests truthiness).
    - A [Record<string, string>] is a [gmap string string].
    - Console output, the calls made on the SDK objects and the timer are
      recorded, in order, in a trace of [Event]s; a computation is a function
      from the trace so far to a completion (normal or thrown) and the
      extended trace.
    - What the SDK objects answer ([client.connect], [client.close],
      [transport.close]) and what the platform's [URL] constructor accepts
      are parameters. *)

From Stdlib Require Import String Ascii List Arith Lia Bool.
From Equations Require Import Equations.
From stdpp Require Import base option strings gmap.
Import ListNotations.
Local Open Scope string_scope.

(* ===================================================================== *)
(** * Strings *)
(* ===================================================================== *)

(** [strip_prefix lit s] is the rest of [s] after a leading [lit], if [s]
    starts with [lit]: a literal pattern matched at the current position. *)
Fixpoint strip_prefix (lit s : string) : option string :=
  match lit, s with
  | EmptyString, _ => Some s
  | String a lit', String b s' =>
      if Ascii.eqb a b then strip_prefix lit' s' else None
  | String _ _, EmptyString => None
  end.

(** [s.includes(lit)] *)
Fixpoint includes (s lit : string) : bool :=
  match strip_prefix lit s with
  | Some _ => true
  | None =>
      match s with
      | EmptyString => false
      | String _ s' => includes s' lit
      end
  end.

(** [c] occurs in [s]. *)
Fixpoint has_char (c : ascii) (s : string) : bool :=
  match s with
  | EmptyString => false
  | String a s' => Ascii.eqb a c || has_char c s'
  end.

(** The regular expression [/localhost|127\.0\.0\.1/] tried at the start of
    [s]: the alternatives in their order, the escaped dots as literal dots.
    The result is what follows the match. *)
Definition loopback_exec (s : string) : option string :=
  match strip_prefix "localhost" s with
  | Some rest => Some rest
  | None => strip_prefix "127.0.0.1" s
  end.

(** A value together with the equation that names it, for the clauses that
    need to know which case they are in. *)
Definition inspect {A : Type} (a : A) : { b : A | a = b } := exist _ a eq_refl.

(** [s.replace(/localhost|127\.0\.0\.1/g, replacement)]: the scan goes left
    to right; a match is replaced and the scan resumes after it (the text
    put in is not scanned again); an unmatched character is copied.  The
    replacement used by the source has no [$], so it is taken literally. *)
Equations? replace_loopback (replacement : string) (s : string) : string
  by wf (String.length s) lt :=
replace_loopback replacement EmptyString := EmptyString;
replace_loopback replacement (String c s') with
    inspect (loopback_exec (String c s')) := {
  | exist _ (Some rest) _ := replacement ++ replace_loopback replacement rest;
  | exist _ None _ := String c (replace_loopback replacement s') }.
Proof.
  - assert (Hlen : forall lit t r, strip_prefix lit t = Some r ->
                     String.length t = String.length lit + String.length r).
    { induction lit as [|a lit IH]; intros [|b t] r Hs; simpl in Hs;
        try discriminate.
      - inversion Hs; reflexivity.
      - inversion Hs; reflexivity.
      - destruct (Ascii.eqb a b); [|discriminate].
        simpl. f_equal. now apply IH. }
    unfold loopback_exec in e.
    destruct (strip_prefix "localhost" (String c s')) eqn:E1.
    + inversion e; subst. apply Hlen in E1. simpl in *. lia.
    + apply Hlen in e. simpl in *. lia.
  - simpl. lia.
Qed.

(* ===================================================================== *)
(** * JavaScript values *)
(* ===================================================================== *)

(** Truthiness of an optional string: absent and [""] are falsy. *)
Definition truthy (o : option string) : bool :=
  match o with
  | Some s => negb (String.eqb s "")
  | None => false
  end.

(** [o === s] for an optional string [o] and a string literal [s]. *)
Definition strict_eq (o : option string) (s : string) : bool :=
  match o with
  | Some v => String.eqb v s
  | None => false
  end.

(** [o || d] *)
Definition or_default (o : option string) (d : string) : string :=
  match o with
  | Some s => if String.eqb s "" then d else s
  | None => d
  end.

(** [`${o}`] *)
Definition interpolate (o : option string) : string :=
  match o with
  | Some s => s
  | None => "undefined"
  end.

(** A thrown value, kept as the text that [`${error}`] renders. *)
Definition Exception : Type := string.

(* ===================================================================== *)
(** * The process: environment, console, SDK calls, timer *)
(* ===================================================================== *)

(** [process.env], as far as the module reads it. *)
Record ProcessEnv := {
  TRANSFORM_LOCALHOST_TO_DOCKER_INTERNAL : option string
}.

Inductive Event :=
| ConsoleLog (line : string)
| ConsoleError (line : string)
| ClientConnect          (* client.connect(transport) *)
| ClientClose            (* client.close() *)
| TransportClose         (* transport.close() *)
| Sleep (time : nat).    (* setTimeout(.., time), awaited *)

Definition World : Type := list Event.

Definition is_ClientConnect (e : Event) : bool :=
  match e with ClientConnect => true | _ => false end.
Definition is_ClientClose (e : Event) : bool :=
  match e with ClientClose => true | _ => false end.
Definition is_TransportClose (e : Event) : bool :=
  match e with TransportClose => true | _ => false end.

(** How many events of a kind the trace holds: the call count a mock of the
    SDK object would record. *)
Fixpoint calls (kind : Event -> bool) (w : World) : nat :=
  match w with
  | [] => 0
  | e :: w' => (if kind e then 1 else 0) + calls kind w'
  end.

(** What the SDK objects answer.  The n-th call of a method (counting from
    0) completes normally ([None]) or throws ([Some error]). *)
Record Sdk := {
  connect_outcome : nat -> option Exception;
  client_close_outcome : nat -> option Exception;
  transport_close_outcome : nat -> option Exception
}.

Inductive Completion (A : Type) : Type :=
| Normal (a : A)
| Throw (error : Exception).
Arguments Normal {A} a.
Arguments Throw {A} error.

(** A computation: synchronous code and awaited promises alike run to
    completion in sequence. *)
Definition M (A : Type) : Type := World -> Completion A * World.

#[global] Instance M_ret : MRet M := fun A a w => (Normal a, w).

#[global] Instance M_bind : MBind M := fun A B k m w =>
  match m w with
  | (Normal a, w') => k a w'
  | (Throw error, w') => (Throw error, w')
  end.

(** [try { body } catch (error) { handler }] *)
Definition try_catch {A : Type} (body : M A) (handler : Exception -> M A)
  : M A :=
  fun w =>
    match body w with
    | (Normal a, w') => (Normal a, w')
    | (Throw error, w') => handler error w'
    end.

Definition emit (e : Event) : M unit := fun w => (Normal tt, (w ++ [e])%list).

Definition console_log (line : string) : M unit := emit (ConsoleLog line).
Definition console_error (line : string) : M unit := emit (ConsoleError line).

(** [const sleep = (time) => new Promise((resolve) => setTimeout(..., time))] *)
Definition sleep (time : nat) : M unit := emit (Sleep time).

Definition answer (o : option Exception) : Completion unit :=
  match o with
  | None => Normal tt
  | Some error => Throw error
  end.

Definition client_connect (sdk : Sdk) : M unit :=
  fun w => (answer (connect_outcome sdk (calls is_ClientConnect w)),
            (w ++ [ClientConnect])%list).

Definition client_close (sdk : Sdk) : M unit :=
  fun w => (answer (client_close_outcome sdk (calls is_ClientClose w)),
            (w ++ [ClientClose])%list).

Definition transport_close (sdk : Sdk) : M unit :=
  fun w => (answer (transport_close_outcome sdk (calls is_TransportClose w)),
            (w ++ [TransportClose])%list).

(* ===================================================================== *)
(** * transformDockerUrl *)
(* ===================================================================== *)

Definition transformDockerUrl (process : ProcessEnv) (url : string) : M string :=
  if strict_eq (TRANSFORM_LOCALHOST_TO_DOCKER_INTERNAL process) "true" then
    let transformed := replace_loopback "host.docker.internal" url in
    console_log ("Docker URL transformation: " ++ url ++ " -> " ++ transformed) ;;
    mret transformed
  else
    console_log ("Docker URL transformation disabled: " ++ url) ;;
    mret url.

(* ===================================================================== *)
(** * Server parameters and SDK objects *)
(* ===================================================================== *)

Record OAuthTokens := {
  access_token : string
}.

(** [StdioServerParameters] of the SDK, as the source fills it. *)
Module Stdio.
Record StdioServerParameters := {
  command : string;
  args : option (list string);
  env : option (gmap string string);
  stderr : string
}.
End Stdio.

(** Modelled from the spec: the type [ServerParameters], declared in
    [./fetch-metamcp], which is not among the sources.  The fields are those
    the spec lists and the factory reads; every field but [name] may be
    absent.  [type] is any string, so that an unrecognized type is an input. *)
Record ServerParameters := {
  name : string;
  type : option string;
  command : option string;
  args : option (list string);
  env : option (gmap string string);
  url : option string;
  oauth_tokens : option OAuthTokens
}.

(** [cond && o] as a branch condition: the string the branch then reads,
    when [cond] holds and [o] is truthy. *)
Definition and_truthy (cond : bool) (o : option string) : option string :=
  if cond then
    match o with
    | Some s => if String.eqb s "" then None else Some s
    | None => None
    end
  else None.

(** The [init] object of a fetch call: its [headers] and its other own
    properties. *)
Record RequestInit := {
  headers : option (gmap string string);
  other_properties : gmap string string
}.

(** A call of the global [fetch]. *)
Record FetchCall := {
  fetch_input : string;
  fetch_init : RequestInit
}.

Record EventSourceInit := {
  fetch : string -> option RequestInit -> FetchCall
}.

(** The options object given to an HTTP transport: [requestInit], and for
    the event-stream transport [eventSourceInit]. *)
Record TransportOptions := {
  requestInit : option RequestInit;
  eventSourceInit : option EventSourceInit
}.

(** [{ ...init, headers }] *)
Definition spread_with_headers (init : option RequestInit)
    (hdrs : gmap string string) : RequestInit :=
  {| headers := Some hdrs;
     other_properties :=
       match init with
       | Some i => other_properties i
       | None => ∅
       end |}.

Module Implementation.
Record t := {
  name : string;
  version : string
}.
End Implementation.

Record ResourcesCapability := {
  subscribe : option bool
}.

(** [prompts: {}] and [tools: {}] are declared with an empty object. *)
Record ClientCapabilities := {
  prompts : option unit;
  resources : option ResourcesCapability;
  tools : option unit
}.

(** [new Client(clientInfo, { capabilities })] *)
Record Client := {
  clientInfo : Implementation.t;
  capabilities : ClientCapabilities
}.

(** [interface ConnectedClient { client; cleanup }] *)
Module ConnectedClient.
Record t := {
  client : Client;
  cleanup : M unit
}.
End ConnectedClient.

(** [waitFor] and [retries] of [connectMetaMcpClient]. *)
Definition waitFor : nat := 2500.
Definition retries : nat := 3.

(** The loop of [connectMetaMcpClient] goes on while [retry] holds; each pass
    that does not return raises [count]. *)
Definition loop_measure (count : nat) (retry : bool) : nat :=
  if retry then S (retries - count) else 0.

(** The client every call of the factory constructs: a fixed identity and a
    fixed capability set. *)
Definition metamcp_client : Client :=
  {| clientInfo :=
       {| Implementation.name := "metamcp-client";
          Implementation.version := "2.0.0" |};
     capabilities :=
       {| prompts := Some tt;
          resources := Some {| subscribe := Some true |};
          tools := Some tt |} |}.

Section Platform.

(** The platform's [URL] objects and constructor: [new URL(s)] throws a
    [TypeError] on a string it cannot parse. *)
Variable URL : Type.
Variable URL_new : string -> Exception + URL.

Definition new_URL (s : string) : M URL :=
  fun w =>
    (match URL_new s with
     | inl error => Throw error
     | inr u => Normal u
     end, w).

Inductive Transport :=
| StdioClientTransport (server : Stdio.StdioServerParameters)
| SSEClientTransport (url : URL) (opts : option TransportOptions)
| StreamableHTTPClientTransport (url : URL) (opts : option TransportOptions).

(** The value [createMetaMcpClient] returns. *)
Record ClientAndTransport := {
  client : option Client;
  transport : option Transport
}.

(** The end of [createMetaMcpClient], reached from the three branches that
    assign [transport]. *)
Definition with_new_client (transport : option Transport)
  : M ClientAndTransport :=
  let client := metamcp_client in
  mret {| client := Some client; transport := transport |}.

Definition createMetaMcpClient (process : ProcessEnv)
    (serverParams : ServerParameters) : M ClientAndTransport :=
  if negb (truthy (type serverParams))
     || strict_eq (type serverParams) "STDIO" then
    let _stderrValue := "pipe" in
    let stdioParams :=
      {| Stdio.command := or_default (command serverParams) "";
         Stdio.args := args serverParams;
         Stdio.env := env serverParams;
         Stdio.stderr := "ignore" |} in
    with_new_client (Some (StdioClientTransport stdioParams))
  else
    match and_truthy (strict_eq (type serverParams) "SSE")
                     (url serverParams) with
    | Some url =>
        transformedUrl ← transformDockerUrl process url;
        console_log ("Creating SSE transport for: " ++ transformedUrl) ;;
        match oauth_tokens serverParams with
        | None =>
            u ← new_URL transformedUrl;
            with_new_client (Some (SSEClientTransport u None))
        | Some tokens =>
            let headers : gmap string string :=
              <["Authorization" := "Bearer " ++ access_token tokens]> ∅ in
            u ← new_URL transformedUrl;
            with_new_client
              (Some (SSEClientTransport u
                 (Some
                    {| requestInit :=
                         Some {| headers := Some headers;
                                 other_properties := ∅ |};
                       eventSourceInit :=
                         Some {| fetch := fun url init =>
                                   {| fetch_input := url;
                                      fetch_init :=
                                        spread_with_headers init headers |}
                              |} |})))
        end
    | None =>
        match and_truthy (strict_eq (type serverParams) "STREAMABLE_HTTP")
                         (url serverParams) with
        | Some url =>
            transformedUrl ← transformDockerUrl process url;
            console_log
              ("Creating StreamableHTTP transport for: " ++ transformedUrl) ;;
            match oauth_tokens serverParams with
            | None =>
                u ← new_URL transformedUrl;
                with_new_client (Some (StreamableHTTPClientTransport u None))
            | Some tokens =>
                let headers : gmap string string :=
                  <["Authorization" := "Bearer " ++ access_token tokens]> ∅ in
                u ← new_URL transformedUrl;
                with_new_client
                  (Some (StreamableHTTPClientTransport u
                     (Some
                        {| requestInit :=
                             Some {| headers := Some headers;
                                     other_properties := ∅ |};
                           eventSourceInit := None |})))
            end
        | None =>
            console_error
              ("Unsupported server type: " ++ interpolate (type serverParams)) ;;
            mret {| client := None; transport := None |}
        end
    end.

(* ------------------------------------------------------------------- *)
(** ** connectMetaMcpClient *)

(** How one pass through the body of the [while] loop ends: by the
    [return] of the [try] block, or at the end of the [catch] block with
    the updated [count] and [retry]. *)
Inductive Pass :=
| Returned (connected : ConnectedClient.t)
| Caught (count : nat) (retry : bool).

Definition connect_pass (sdk : Sdk) (client : Client)
    (transport : Transport) (count : nat) : M Pass :=
  try_catch
    (client_connect sdk ;;
     mret (Returned
             {| ConnectedClient.client := client;
                ConnectedClient.cleanup :=
                  (transport_close sdk ;; client_close sdk) |}))
    (fun error =>
       console_error ("Error connecting to MetaMCP client: " ++ error) ;;
       let count := S count in
       let retry := (count <? retries)%nat in
       (if retry then
          try_catch (client_close sdk) (fun _ => mret tt) ;;
          sleep waitFor
        else mret tt) ;;
       mret (Caught count retry)).

(** [while (retry) { ... }], then the end of the function, which yields
    [undefined]. *)
Equations? connect_while (sdk : Sdk) (client : Client)
    (transport : Transport) (count : nat) (retry : bool) (w : World)
  : Completion (option ConnectedClient.t) * World
  by wf (loop_measure count retry) lt :=
connect_while sdk client transport count false w := (Normal None, w);
connect_while sdk client transport count true w with
    inspect (connect_pass sdk client transport count w) := {
  | exist _ (Normal (Returned connected), w') _ :=
      (Normal (Some connected), w');
  | exist _ (Normal (Caught count' retry'), w') _ :=
      connect_while sdk client transport count' retry' w';
  | exist _ (Throw error, w') _ := (Throw error, w') }.
Proof.
  unfold connect_pass, try_catch, client_connect, console_error, emit,
    sleep, client_close, mbind, M_bind, mret, M_ret in e.
  destruct (answer (connect_outcome sdk (calls is_ClientConnect w)));
    [discriminate|].
  simpl in e.
  destruct (S count <? retries)%nat eqn:Hlt.
  - apply Nat.ltb_lt in Hlt.
    destruct (answer _) in e; inversion e; subst; unfold loop_measure; lia.
  - inversion e; subst. unfold loop_measure. lia.
Qed.

Definition connectMetaMcpClient (sdk : Sdk) (client : Client)
    (transport : Transport) : M (option ConnectedClient.t) :=
  let count := 0 in
  let retry := true in
  connect_while sdk client transport count retry.

End Platform.

Arguments StdioClientTransport {URL} server.
Arguments SSEClientTransport {URL} url opts.
Arguments StreamableHTTPClientTransport {URL} url opts.
Arguments client {URL} _.
Arguments transport {URL} _.
Arguments createMetaMcpClient {URL} URL_new process serverParams _.
Arguments connectMetaMcpClient {URL} sdk client transport _.
Arguments connect_while {URL} sdk client transport count retry w.
Arguments connect_pass {URL} sdk client transport count _.

(* ===================================================================== *)
(** * Notions used to state the properties *)
(* ===================================================================== *)

(** The string [transformDockerUrl] returns. *)
Definition transformed (process : ProcessEnv) (url : string) : string :=
  if strict_eq (TRANSFORM_LOCALHOST_TO_DOCKER_INTERNAL process) "true" then
    replace_loopback "host.docker.internal" url
  else url.

(** [s] holds neither loopback literal. *)
Definition loopback_free (s : string) : bool :=
  negb (includes s "localhost") && negb (includes s "127.0.0.1").

Definition loopback_free_opt (o : option string) : bool :=
  match o with
  | Some s => loopback_free s
  | None => true
  end.

(** A character of one of the two loopback literals. *)
Definition pattern_char (c : ascii) : bool :=
  has_char c "localhost" || has_char c "127.0.0.1".

(** The parts of a URL string [scheme://host[:port][/path][?query]]. *)
Record UrlParts := {
  scheme : string;
  host : string;
  port : option string;
  path : option string;
  query : option string
}.

(** An optional part with its delimiter in front. *)
Definition opt_part (delimiter : ascii) (o : option string) : string :=
  match o with
  | Some s => String delimiter s
  | None => ""
  end.

Definition url_string (u : UrlParts) : string :=
  scheme u ++ "://" ++ host u
    ++ opt_part ":" (port u) ++ opt_part "/" (path u) ++ opt_part "?" (query u).

Definition with_host (h : string) (u : UrlParts) : UrlParts :=
  {| scheme := scheme u; host := h; port := port u; path := path u;
     query := query u |}.

(** [s] without its last character. *)
Fixpoint all_but_last (s : string) : string :=
  match s with
  | EmptyString => EmptyString
  | String c EmptyString => EmptyString
  | String c s' => String c (all_but_last s')
  end.

(** A string that is empty or starts with a character of neither literal. *)
Definition delimited (s : string) : bool :=
  match s with
  | EmptyString => true
  | String d _ => negb (pattern_char d)
  end.

(** The events of a failed attempt that is followed by another one, and of
    the failed attempt that is the last. *)
Definition connect_error_line (error : Exception) : string :=
  "Error connecting to MetaMCP client: " ++ error.

Definition retry_events (error : Exception) : list Event :=
  [ClientConnect; ConsoleError (connect_error_line error);
   ClientClose; Sleep waitFor].

Definition final_failure_events (error : Exception) : list Event :=
  [ClientConnect; ConsoleError (connect_error_line error)].

(** The delays of the timer, in order. *)
Fixpoint sleeps (w : World) : list nat :=
  match w with
  | [] => []
  | Sleep time :: w' => time :: sleeps w'
  | _ :: w' => sleeps w'
  end.

(** The events after the last [client.connect(transport)]. *)
Fixpoint after_last_connect (w : World) : World :=
  match w with
  | [] => []
  | e :: w' =>
      if (0 <? calls is_ClientConnect w')%nat then after_last_connect w'
      else if is_ClientConnect e then w'
      else e :: w'
  end.

(** The handle [connectMetaMcpClient] returns on success. *)
Definition connected_client (sdk : Sdk) (client : Client) : ConnectedClient.t :=
  {| ConnectedClient.client := client;
     ConnectedClient.cleanup := transport_close sdk ;; client_close sdk |}.

(** The client of a completion of [connectMetaMcpClient]. *)
Definition completion_client (c : Completion (option ConnectedClient.t))
  : Completion (option Client) :=
  match c with
  | Normal r => Normal (ConnectedClient.client <$> r)
  | Throw error => Throw error
  end.

(** What the transport has been given for its own requests, and for the
    fetches of its event stream. *)
Definition request_headers {URL : Type} (t : Transport URL)
  : option (gmap string string) :=
  match t with
  | StdioClientTransport _ => None
  | SSEClientTransport _ opts | StreamableHTTPClientTransport _ opts =>
      match opts with
      | Some o =>
          match requestInit o with
          | Some init => headers init
          | None => None
          end
      | None => None
      end
  end.

Definition event_source_fetch {URL : Type} (t : Transport URL)
  : option (string -> option RequestInit -> FetchCall) :=
  match t with
  | SSEClientTransport _ (Some o) =>
      match eventSourceInit o with
      | Some init => Some (fetch init)
      | None => None
      end
  | _ => None
  end.

Definition transport_options {URL : Type} (t : Transport URL)
  : option TransportOptions :=
  match t with
  | StdioClientTransport _ => None
  | SSEClientTransport _ opts | StreamableHTTPClientTransport _ opts => opts
  end.

Definition transport_url {URL : Type} (t : Transport URL) : option URL :=
  match t with
  | StdioClientTransport _ => None
  | SSEClientTransport u _ | StreamableHTTPClientTransport u _ => Some u
  end.

(* --------------------------------------------------------------------- *)
(** ** Concrete inputs *)

Definition docker_on : ProcessEnv :=
  {| TRANSFORM_LOCALHOST_TO_DOCKER_INTERNAL := Some "true" |}.

Definition docker_unset : ProcessEnv :=
  {| TRANSFORM_LOCALHOST_TO_DOCKER_INTERNAL := None |}.

Definition docker_upper : ProcessEnv :=
  {| TRANSFORM_LOCALHOST_TO_DOCKER_INTERNAL := Some "TRUE" |}.

Definition is_alpha (c : ascii) : bool :=
  let n := nat_of_ascii c in
  ((65 <=? n) && (n <=? 90) || (97 <=? n) && (n <=? 122))%nat.

Definition is_scheme_char (c : ascii) : bool :=
  let n := nat_of_ascii c in
  is_alpha c || ((48 <=? n) && (n <=? 57))%nat
  || Ascii.eqb c "+" || Ascii.eqb c "-" || Ascii.eqb c ".".

Fixpoint scheme_ends (s : string) : bool :=
  match s with
  | EmptyString => false
  | String c s' =>
      if Ascii.eqb c ":" then true
      else if is_scheme_char c then scheme_ends s' else false
  end.

Definition starts_with_scheme (s : string) : bool :=
  match s with
  | EmptyString => false
  | String c s' => is_alpha c && scheme_ends s'
  end.

(** A stand-in for the platform's constructor, to run the factory on
    concrete inputs: a string that does not start with a scheme and a colon
    is rejected, as the platform rejects it when no base is given; any other
    string is kept as it is. *)
Definition URL_scheme_gate (s : string) : Exception + string :=
  if starts_with_scheme s then inr s else inl "TypeError: Invalid URL".

Definition sdk_ready : Sdk :=
  {| connect_outcome := fun _ => None;
     client_close_outcome := fun _ => None;
     transport_close_outcome := fun _ => None |}.

Definition sdk_refusing : Sdk :=
  {| connect_outcome := fun _ => Some "Error: connect ECONNREFUSED";
     client_close_outcome := fun _ => None;
     transport_close_outcome := fun _ => None |}.

Definition sdk_third_attempt : Sdk :=
  {| connect_outcome := fun n =>
       if (n <? 2)%nat then Some "Error: connect ECONNREFUSED" else None;
     client_close_outcome := fun _ => Some "Error: Not connected";
     transport_close_outcome := fun _ => None |}.

(** The answers of [sdk_third_attempt], but for the closes of the client,
    which succeed. *)
Definition sdk_third_attempt_quiet : Sdk :=
  {| connect_outcome := connect_outcome sdk_third_attempt;
     client_close_outcome := fun _ => None;
     transport_close_outcome := fun _ => None |}.

Definition echo_transport : Transport string :=
  StdioClientTransport
    {| Stdio.command := "echo"; Stdio.args := Some ["ok"];
       Stdio.env := None; Stdio.stderr := "ignore" |}.

Definition params_no_command : ServerParameters :=
  {| name := "local"; type := None; command := None; args := None;
     env := None; url := None; oauth_tokens := None |}.

Definition params_sse_token : ServerParameters :=
  {| name := "remote"; type := Some "SSE"; command := None; args := None;
     env := None; url := Some "http://localhost:3000/mcp";
     oauth_tokens := Some {| access_token := "tok123" |} |}.

Definition params_sse_malformed : ServerParameters :=
  {| name := "remote"; type := Some "SSE"; command := None; args := None;
     env := None; url := Some "not a url"; oauth_tokens := None |}.

(* ===================================================================== *)
(** * Strings: the scan of [replace_loopback] *)
(* ===================================================================== *)

#[local] Arguments String.append !s1 s2 : simpl nomatch.

Lemma strip_prefix_length lit s rest :
  strip_prefix lit s = Some rest ->
  String.length s = String.length lit + String.length rest.
Proof.
  revert s rest.
  induction lit as [|a lit IH]; intros [|b s] rest Hs; simpl in Hs;
    try discriminate.
  - inversion Hs; reflexivity.
  - inversion Hs; reflexivity.
  - destruct (Ascii.eqb a b); [|discriminate].
    simpl. f_equal. now apply IH.
Qed.

Lemma loopback_exec_length s rest :
  loopback_exec s = Some rest -> String.length s = 9 + String.length rest.
Proof.
  unfold loopback_exec. intros H.
  destruct (strip_prefix "localhost" s) eqn:E1.
  - inversion H; subst. now apply strip_prefix_length in E1.
  - now apply strip_prefix_length in H.
Qed.

(** The two defining cases of the scan on a non-empty string. *)
Lemma replace_loopback_cons replacement c s :
  replace_loopback replacement (String c s) =
  match loopback_exec (String c s) with
  | Some rest => replacement ++ replace_loopback replacement rest
  | None => String c (replace_loopback replacement s)
  end.
Proof.
  rewrite replace_loopback_equation_2. unfold inspect.
  enough (H : forall o (e : loopback_exec (String c s) = o),
             replace_loopback_unfold_clause_2 replacement c s (exist _ o e) =
             match o with
             | Some rest => replacement ++ replace_loopback replacement rest
             | None => String c (replace_loopback replacement s)
             end) by apply H.
  intros [rest|] e; reflexivity.
Qed.

(** Induction along the scan. *)
Lemma replace_loopback_scan (replacement : string) (P : string -> string -> Prop) :
  P "" "" ->
  (forall c s rest,
      loopback_exec (String c s) = Some rest ->
      P rest (replace_loopback replacement rest) ->
      P (String c s) (replacement ++ replace_loopback replacement rest)) ->
  (forall c s,
      loopback_exec (String c s) = None ->
      P s (replace_loopback replacement s) ->
      P (String c s) (String c (replace_loopback replacement s))) ->
  forall s, P s (replace_loopback replacement s).
Proof.
  intros Hnil Hmatch Hcopy s.
  remember (String.length s) as n eqn:Hn.
  revert s Hn.
  induction n as [n IH] using lt_wf_ind.
  intros [|c s] Hn.
  - rewrite replace_loopback_equation_1. exact Hnil.
  - rewrite replace_loopback_cons.
    destruct (loopback_exec (String c s)) as [rest|] eqn:E.
    + apply Hmatch; [exact E|].
      apply (IH (String.length rest)); [|reflexivity].
      apply loopback_exec_length in E. simpl in E, Hn. lia.
    + apply Hcopy; [exact E|].
      apply (IH (String.length s)); [|reflexivity].
      simpl in Hn. lia.
Qed.

(** A literal without the character [d] cannot reach over a [d]. *)
Lemma strip_prefix_delimiter lit d a b :
  has_char d lit = false ->
  strip_prefix lit (a ++ String d b) =
  (fun rest => rest ++ String d b) <$> strip_prefix lit a.
Proof.
  revert a.
  induction lit as [|x lit IH]; intros a Hd.
  - destruct a; reflexivity.
  - simpl in Hd. apply orb_false_iff in Hd as [Hx Hlit].
    destruct a as [|y a]; simpl.
    + rewrite Hx. reflexivity.
    + destruct (Ascii.eqb x y); [apply IH; exact Hlit | reflexivity].
Qed.

Lemma pattern_char_false d :
  pattern_char d = false ->
  has_char d "localhost" = false /\ has_char d "127.0.0.1" = false.
Proof. unfold pattern_char. apply orb_false_iff. Qed.

Lemma loopback_exec_delimiter d a b :
  pattern_char d = false ->
  loopback_exec (a ++ String d b) =
  (fun rest => rest ++ String d b) <$> loopback_exec a.
Proof.
  intros Hd. apply pattern_char_false in Hd as [H1 H2].
  unfold loopback_exec.
  rewrite (strip_prefix_delimiter "localhost") by exact H1.
  rewrite (strip_prefix_delimiter "127.0.0.1") by exact H2.
  destruct (strip_prefix "localhost" a); reflexivity.
Qed.

Lemma string_app_assoc (a b c : string) : (a ++ b) ++ c = a ++ (b ++ c).
Proof. induction a as [|x a IH]; simpl; [reflexivity | now rewrite IH]. Qed.

Lemma string_app_nil_r (a : string) : a ++ "" = a.
Proof. induction a as [|x a IH]; simpl; [reflexivity | now rewrite IH]. Qed.

Lemma string_length_app (a b : string) :
  String.length (a ++ b) = String.length a + String.length b.
Proof. induction a as [|x a IH]; simpl; [reflexivity | now rewrite IH]. Qed.

(** The scan treats the two sides of a delimiter separately. *)
Lemma replace_loopback_delimiter replacement d a b :
  pattern_char d = false ->
  replace_loopback replacement (a ++ String d b) =
  replace_loopback replacement a ++ String d (replace_loopback replacement b).
Proof.
  intros Hd. revert a.
  apply (replace_loopback_scan replacement
           (fun a out => replace_loopback replacement (a ++ String d b) =
                         out ++ String d (replace_loopback replacement b))).
  - simpl. rewrite replace_loopback_cons.
    pose proof (loopback_exec_delimiter d "" b Hd) as E. simpl in E.
    rewrite E. reflexivity.
  - intros c s rest E IH.
    change (String c s ++ String d b) with (String c (s ++ String d b)).
    rewrite replace_loopback_cons.
    pose proof (loopback_exec_delimiter d (String c s) b Hd) as E'.
    simpl in E'. rewrite E' , E. simpl.
    rewrite IH. now rewrite string_app_assoc.
  - intros c s E IH.
    change (String c s ++ String d b) with (String c (s ++ String d b)).
    rewrite replace_loopback_cons.
    pose proof (loopback_exec_delimiter d (String c s) b Hd) as E'.
    simpl in E'. rewrite E' , E. simpl.
    now rewrite IH.
Qed.

Lemma includes_cons s c lit :
  includes (String c s) lit =
  match strip_prefix lit (String c s) with
  | Some _ => true
  | None => includes s lit
  end.
Proof. reflexivity. Qed.

Lemma loopback_free_cons c s :
  loopback_free (String c s) = true ->
  loopback_exec (String c s) = None /\ loopback_free s = true.
Proof.
  unfold loopback_free, loopback_exec.
  rewrite !includes_cons.
  destruct (strip_prefix "localhost" (String c s)); [discriminate|].
  destruct (strip_prefix "127.0.0.1" (String c s)); [rewrite andb_false_r; discriminate|].
  auto.
Qed.

(** A string that holds neither literal is left as it is. *)
Lemma replace_loopback_free replacement s :
  loopback_free s = true -> replace_loopback replacement s = s.
Proof.
  induction s as [|c s IH]; intros Hfree.
  - apply replace_loopback_equation_1.
  - apply loopback_free_cons in Hfree as [E Hs].
    rewrite replace_loopback_cons, E, IH by exact Hs. reflexivity.
Qed.

(** What the scan puts out starts with a literal that has no [h] only
    where the input does. *)
Lemma strip_prefix_replace_loopback lit s :
  has_char "h" lit = false ->
  strip_prefix lit s = None ->
  strip_prefix lit (replace_loopback "host.docker.internal" s) = None.
Proof.
  revert s.
  induction lit as [|x lit IH]; intros s Hh Hs.
  - destruct s; discriminate.
  - simpl in Hh. apply orb_false_iff in Hh as [Hx Hlit].
    destruct s as [|c s].
    + rewrite replace_loopback_equation_1. reflexivity.
    + rewrite replace_loopback_cons.
      destruct (loopback_exec (String c s)) as [rest|].
      * simpl. rewrite Hx. reflexivity.
      * simpl in *. destruct (Ascii.eqb x c); [|reflexivity].
        apply IH; assumption.
Qed.

(** The address [127.0.0.1] never survives the replacement. *)
Lemma replace_loopback_no_ip s :
  includes (replace_loopback "host.docker.internal" s) "127.0.0.1" = false.
Proof.
  apply (replace_loopback_scan "host.docker.internal"
           (fun _ out => includes out "127.0.0.1" = false)).
  - reflexivity.
  - intros c s0 rest _ IH. simpl. exact IH.
  - intros c s0 E IH.
    rewrite includes_cons.
    assert (Hs : strip_prefix "127.0.0.1" (String c s0) = None).
    { unfold loopback_exec in E.
      destruct (strip_prefix "localhost" (String c s0)); [discriminate|exact E]. }
    apply (strip_prefix_replace_loopback "127.0.0.1") in Hs; [|reflexivity].
    rewrite replace_loopback_cons, E in Hs. rewrite Hs. exact IH.
Qed.

(** An occurrence of a literal without the character [d] lies on one side
    of a [d]. *)
Lemma includes_delimiter lit d a b :
  has_char d lit = false -> lit <> "" ->
  includes (a ++ String d b) lit = includes a lit || includes b lit.
Proof.
  intros Hd Hne.
  induction a as [|y a IH].
  - change ("" ++ String d b) with (String d b).
    rewrite includes_cons.
    pose proof (strip_prefix_delimiter lit d "" b Hd) as E. simpl in E.
    rewrite E. destruct lit as [|x lit]; [congruence|]. reflexivity.
  - change (String y a ++ String d b) with (String y (a ++ String d b)).
    rewrite !includes_cons.
    pose proof (strip_prefix_delimiter lit d (String y a) b Hd) as E.
    simpl in E. rewrite E.
    destruct (strip_prefix lit (String y a)); [reflexivity | exact IH].
Qed.

Lemma replace_loopback_skip replacement d s :
  pattern_char d = false ->
  replace_loopback replacement (String d s) =
  String d (replace_loopback replacement s).
Proof.
  intros Hd.
  pose proof (replace_loopback_delimiter replacement d "" s Hd) as E.
  rewrite replace_loopback_equation_1 in E. exact E.
Qed.

Lemma replace_loopback_app replacement a t :
  delimited t = true ->
  replace_loopback replacement (a ++ t) =
  replace_loopback replacement a ++ replace_loopback replacement t.
Proof.
  destruct t as [|d b]; simpl; intros Hd.
  - rewrite replace_loopback_equation_1, !string_app_nil_r. reflexivity.
  - apply negb_true_iff in Hd.
    rewrite replace_loopback_delimiter, (replace_loopback_skip _ d b) by exact Hd.
    reflexivity.
Qed.

Lemma loopback_free_skip d s :
  pattern_char d = false -> loopback_free (String d s) = loopback_free s.
Proof.
  intros Hd. apply pattern_char_false in Hd as [H1 H2].
  unfold loopback_free.
  pose proof (includes_delimiter "localhost" d "" s H1) as E1.
  pose proof (includes_delimiter "127.0.0.1" d "" s H2) as E2.
  change ("" ++ String d s) with (String d s) in E1, E2.
  rewrite E1, E2 by discriminate. reflexivity.
Qed.

Lemma loopback_free_app a t :
  delimited t = true ->
  loopback_free (a ++ t) = loopback_free a && loopback_free t.
Proof.
  destruct t as [|d b]; simpl; intros Hd.
  - rewrite string_app_nil_r.
    change (loopback_free "") with true. now rewrite andb_true_r.
  - apply negb_true_iff in Hd.
    rewrite (loopback_free_skip d b Hd).
    apply pattern_char_false in Hd as [H1 H2].
    unfold loopback_free.
    rewrite (includes_delimiter "localhost"), (includes_delimiter "127.0.0.1")
      by (assumption || discriminate).
    destruct (includes a "localhost"), (includes b "localhost"),
      (includes a "127.0.0.1"), (includes b "127.0.0.1"); reflexivity.
Qed.

(** What follows the host in a URL string. *)
Lemma url_tail_delimited (p q r : option string) :
  delimited (opt_part ":" p ++ opt_part "/" q ++ opt_part "?" r) = true.
Proof. destruct p, q, r; reflexivity. Qed.

Lemma url_tail_free (p q r : option string) :
  loopback_free_opt p = true ->
  loopback_free_opt q = true ->
  loopback_free_opt r = true ->
  loopback_free (opt_part ":" p ++ opt_part "/" q ++ opt_part "?" r) = true.
Proof.
  intros Hp Hq Hr.
  assert (Hopt : forall d o, pattern_char d = false ->
                   loopback_free_opt o = true ->
                   loopback_free (opt_part d o) = true).
  { intros d [s|] Hd Ho; simpl; [|reflexivity].
    now rewrite loopback_free_skip. }
  rewrite loopback_free_app by (destruct q, r; reflexivity).
  rewrite loopback_free_app by (destruct r; reflexivity).
  rewrite !Hopt by (assumption || reflexivity). reflexivity.
Qed.

(** The scan of a URL string whose parts other than the host hold neither
    literal changes the host only. *)
Lemma replace_loopback_url replacement (u : UrlParts) :
  loopback_free (scheme u) = true ->
  loopback_free_opt (port u) = true ->
  loopback_free_opt (path u) = true ->
  loopback_free_opt (query u) = true ->
  replace_loopback replacement (url_string u) =
  url_string (with_host (replace_loopback replacement (host u)) u).
Proof.
  intros Hs Hp Hq Hr. unfold url_string, with_host. simpl.
  rewrite replace_loopback_delimiter by reflexivity.
  rewrite !replace_loopback_skip by reflexivity.
  rewrite replace_loopback_app by apply url_tail_delimited.
  rewrite (replace_loopback_free _ (scheme u)) by exact Hs.
  rewrite (replace_loopback_free _ (opt_part _ _ ++ _))
    by (apply url_tail_free; assumption).
  reflexivity.
Qed.

Lemma url_docker_host_free (u : UrlParts) :
  loopback_free (scheme u) = true ->
  loopback_free_opt (port u) = true ->
  loopback_free_opt (path u) = true ->
  loopback_free_opt (query u) = true ->
  loopback_free (url_string (with_host "host.docker.internal" u)) = true.
Proof.
  intros Hs Hp Hq Hr.
  change (loopback_free
            (scheme u ++
             String ":" (String "/" (String "/"
               ("host.docker.internal" ++
                opt_part ":" (port u) ++ opt_part "/" (path u)
                  ++ opt_part "?" (query u))))) = true).
  rewrite loopback_free_app by reflexivity.
  rewrite !loopback_free_skip by reflexivity.
  rewrite loopback_free_app by apply url_tail_delimited.
  rewrite Hs, url_tail_free by assumption. reflexivity.
Qed.

(** A literal that does not start a long enough string does not start any
    extension of it. *)
Lemma strip_prefix_app_none lit x y :
  strip_prefix lit x = None ->
  String.length lit <= String.length x ->
  strip_prefix lit (x ++ y) = None.
Proof.
  revert x.
  induction lit as [|a lit IH]; intros [|b x] Hnone Hlen; simpl in *;
    try discriminate; try lia.
  destruct (Ascii.eqb a b); [apply IH; [exact Hnone | lia] | reflexivity].
Qed.

Lemma loopback_exec_app_none x y :
  loopback_exec x = None ->
  9 <= String.length x ->
  loopback_exec (x ++ y) = None.
Proof.
  unfold loopback_exec. intros Hnone Hlen.
  destruct (strip_prefix "localhost" x) eqn:E; [discriminate|].
  rewrite (strip_prefix_app_none "localhost"), (strip_prefix_app_none "127.0.0.1")
    by assumption.
  reflexivity.
Qed.

(** The scan up to the first match.  [lit8] and [z] are the first eight
    characters and the last one of a literal. *)
Lemma replace_loopback_up_to_match replacement lit8 z b :
  String.length lit8 = 8 ->
  loopback_exec (lit8 ++ String z b) = Some b ->
  forall a,
    loopback_free (a ++ lit8) = true ->
    replace_loopback replacement (a ++ lit8 ++ String z b) =
    a ++ replacement ++ replace_loopback replacement b.
Proof.
  intros Hlen Hexec. induction a as [|c a IH]; intros Hfree.
  - change ("" ++ lit8 ++ String z b) with (lit8 ++ String z b).
    destruct lit8 as [|c lit8]; [discriminate|].
    change (String c lit8 ++ String z b) with (String c (lit8 ++ String z b))
      in *.
    rewrite replace_loopback_cons, Hexec. reflexivity.
  - change (String c a ++ lit8) with (String c (a ++ lit8)) in Hfree.
    change (String c a ++ lit8 ++ String z b)
      with (String c (a ++ lit8 ++ String z b)).
    apply loopback_free_cons in Hfree as [E Hfree].
    assert (E' : loopback_exec (String c (a ++ lit8 ++ String z b)) = None).
    { rewrite <- string_app_assoc.
      change (String c ((a ++ lit8) ++ String z b))
        with (String c (a ++ lit8) ++ String z b).
      apply loopback_exec_app_none; [exact E|].
      cbn [String.length]. rewrite string_length_app. lia. }
    rewrite replace_loopback_cons, E', IH by exact Hfree. reflexivity.
Qed.

(** The leftmost occurrence of a literal is replaced, wherever it is, and
    the scan goes on behind it. *)
Lemma replace_loopback_first_match replacement a lit b :
  lit = "localhost" \/ lit = "127.0.0.1" ->
  loopback_free (a ++ all_but_last lit) = true ->
  replace_loopback replacement (a ++ lit ++ b) =
  a ++ replacement ++ replace_loopback replacement b.
Proof.
  intros [-> | ->] Hfree.
  - apply (replace_loopback_up_to_match replacement "localhos" "t" b);
      [reflexivity | reflexivity | exact Hfree].
  - apply (replace_loopback_up_to_match replacement "127.0.0." "1" b);
      [reflexivity | reflexivity | exact Hfree].
Qed.

(* ===================================================================== *)
(** * transformDockerUrl *)
(* ===================================================================== *)

Lemma strict_eq_true o s : strict_eq o s = true <-> o = Some s.
Proof.
  destruct o as [v|]; simpl; [|split; discriminate].
  rewrite String.eqb_eq. split; congruence.
Qed.

Lemma strict_eq_false o s : strict_eq o s = false <-> o <> Some s.
Proof.
  rewrite <- strict_eq_true. destruct (strict_eq o s); split; congruence.
Qed.

Lemma transformDockerUrl_returns process url w :
  fst (transformDockerUrl process url w) = Normal (transformed process url).
Proof.
  unfold transformDockerUrl, transformed.
  destruct (strict_eq _ _); reflexivity.
Qed.

Lemma transformDockerUrl_logs process url w :
  exists line,
    transformDockerUrl process url w =
    (Normal (transformed process url), (w ++ [ConsoleLog line])%list).
Proof.
  unfold transformDockerUrl, transformed.
  destruct (strict_eq _ _); eexists; reflexivity.
Qed.

(** C10.  The URL is rewritten only when the environment variable
    [TRANSFORM_LOCALHOST_TO_DOCKER_INTERNAL] is exactly the string [true]:
    then the result is the global replacement; for every other value of the
    variable, and when it is unset, every URL is returned as it is. *)
Theorem transformDockerUrl_exact_true process url w :
  (TRANSFORM_LOCALHOST_TO_DOCKER_INTERNAL process = Some "true" ->
   transformDockerUrl process url w =
   (Normal (replace_loopback "host.docker.internal" url),
    (w ++ [ConsoleLog
             ("Docker URL transformation: " ++ url ++ " -> "
                ++ replace_loopback "host.docker.internal" url)])%list))
  /\ (TRANSFORM_LOCALHOST_TO_DOCKER_INTERNAL process <> Some "true" ->
      transformDockerUrl process url w =
      (Normal url,
       (w ++ [ConsoleLog ("Docker URL transformation disabled: " ++ url)])%list)).
Proof.
  unfold transformDockerUrl. split; intros Hflag.
  - apply strict_eq_true in Hflag. rewrite Hflag. reflexivity.
  - apply strict_eq_false in Hflag. rewrite Hflag. reflexivity.
Qed.

Lemma transformDockerUrl_exact_true_witness :
  transformDockerUrl docker_on "http://localhost:3000/mcp" [] =
  (Normal "http://host.docker.internal:3000/mcp",
   [ConsoleLog
      "Docker URL transformation: http://localhost:3000/mcp -> http://host.docker.internal:3000/mcp"])
  /\ transformDockerUrl docker_upper "http://localhost:3000/mcp" [] =
     (Normal "http://localhost:3000/mcp",
      [ConsoleLog "Docker URL transformation disabled: http://localhost:3000/mcp"])
  /\ transformDockerUrl docker_unset "http://localhost:3000/mcp" [] =
     (Normal "http://localhost:3000/mcp",
      [ConsoleLog "Docker URL transformation disabled: http://localhost:3000/mcp"]).
Proof.
  split; [|split].
  - apply (proj1 (transformDockerUrl_exact_true docker_on
                    "http://localhost:3000/mcp" [])).
    reflexivity.
  - apply (proj2 (transformDockerUrl_exact_true docker_upper
                    "http://localhost:3000/mcp" [])).
    discriminate.
  - apply (proj2 (transformDockerUrl_exact_true docker_unset
                    "http://localhost:3000/mcp" [])).
    discriminate.
Defined.

(** C2, as the source has it.  With the flag off the URL comes back
    unchanged.  With the flag on, every occurrence of [localhost] or
    [127.0.0.1] met from left to right is replaced by
    [host.docker.internal], wherever in the string it is: a URL that holds
    neither literal is unchanged, and a URL [a ++ lit ++ b] whose first
    occurrence of a literal is [lit] becomes [a], then
    [host.docker.internal], then what [b] becomes.  The result holds no
    [127.0.0.1].  For a URL [scheme://host[:port][/path][?query]] whose
    scheme, port, path and query hold neither literal, those parts are
    unchanged and the host is what the host alone becomes: when the host is
    [localhost] or [127.0.0.1] it becomes [host.docker.internal] and the
    result holds neither literal. *)
Theorem transformDockerUrl_parts process url w :
  (TRANSFORM_LOCALHOST_TO_DOCKER_INTERNAL process <> Some "true" ->
   fst (transformDockerUrl process url w) = Normal url)
  /\ (TRANSFORM_LOCALHOST_TO_DOCKER_INTERNAL process = Some "true" ->
      exists out,
        fst (transformDockerUrl process url w) = Normal out
        /\ includes out "127.0.0.1" = false
        /\ (loopback_free url = true -> out = url)
        /\ (forall a lit b w',
              url = a ++ lit ++ b ->
              lit = "localhost" \/ lit = "127.0.0.1" ->
              loopback_free (a ++ all_but_last lit) = true ->
              exists out_b,
                fst (transformDockerUrl process b w') = Normal out_b
                /\ out = a ++ "host.docker.internal" ++ out_b)
        /\ forall u : UrlParts,
            url = url_string u ->
            loopback_free (scheme u) = true ->
            loopback_free_opt (port u) = true ->
            loopback_free_opt (path u) = true ->
            loopback_free_opt (query u) = true ->
            (exists out_host,
                fst (transformDockerUrl process (host u) w) = Normal out_host
                /\ out = url_string (with_host out_host u))
            /\ (host u = "localhost" \/ host u = "127.0.0.1" ->
                out = url_string (with_host "host.docker.internal" u)
                /\ includes out "localhost" = false)).
Proof.
  rewrite transformDockerUrl_returns. unfold transformed.
  split; intros Hflag.
  - apply strict_eq_false in Hflag. now rewrite Hflag.
  - apply strict_eq_true in Hflag. rewrite Hflag.
    eexists. split; [reflexivity|].
    split; [apply replace_loopback_no_ip|].
    split; [apply replace_loopback_free|].
    split.
    { intros a lit b w' -> Hlit Hfree.
      rewrite transformDockerUrl_returns. unfold transformed. rewrite Hflag.
      eexists. split; [reflexivity|].
      now apply replace_loopback_first_match. }
    intros u -> Hs Hp Hq Hr.
    rewrite transformDockerUrl_returns. unfold transformed. rewrite Hflag.
    rewrite replace_loopback_url by assumption.
    split; [eexists; split; reflexivity|].
    intros Hhost.
    assert (Hd : replace_loopback "host.docker.internal" (host u) =
                 "host.docker.internal")
      by (destruct Hhost as [-> | ->]; reflexivity).
    rewrite Hd. split; [reflexivity|].
    pose proof (url_docker_host_free u Hs Hp Hq Hr) as Hfree.
    unfold loopback_free in Hfree.
    apply andb_true_iff in Hfree as [Hfree _].
    now apply negb_true_iff in Hfree.
Qed.

Lemma transformDockerUrl_parts_witness :
  fst (transformDockerUrl docker_unset "http://localhost:3000/mcp?x=1" []) =
  Normal "http://localhost:3000/mcp?x=1"
  /\ (exists out,
        fst (transformDockerUrl docker_on "http://localhost:3000/mcp?x=1" []) =
        Normal out
        /\ includes out "127.0.0.1" = false
        /\ out = "http://host.docker.internal:3000/mcp?x=1"
        /\ includes out "localhost" = false)
  /\ exists out out_b,
      fst (transformDockerUrl docker_on
             "http://localhost.example.com:3000/localhost.html" []) =
      Normal out
      /\ fst (transformDockerUrl docker_on
                ".example.com:3000/localhost.html" []) = Normal out_b
      /\ out = "http://" ++ "host.docker.internal" ++ out_b.
Proof.
  pose (u := {| scheme := "http"; host := "localhost"; port := Some "3000";
                path := Some "mcp"; query := Some "x=1" |}).
  split; [|split].
  - apply (proj1 (transformDockerUrl_parts docker_unset
                    "http://localhost:3000/mcp?x=1" [])).
    discriminate.
  - destruct (proj2 (transformDockerUrl_parts docker_on
                       "http://localhost:3000/mcp?x=1" []) eq_refl)
      as (out & Hout & Hip & _ & _ & Hparts).
    destruct (Hparts u eq_refl eq_refl eq_refl eq_refl eq_refl)
      as (_ & Hhost).
    destruct (Hhost (or_introl eq_refl)) as (Hdocker & Hlocal).
    exists out. repeat split; assumption.
  - destruct (proj2 (transformDockerUrl_parts docker_on
                       "http://localhost.example.com:3000/localhost.html" [])
                eq_refl)
      as (out & Hout & _ & _ & Hfirst & _).
    destruct (Hfirst "http://" "localhost" ".example.com:3000/localhost.html"
                [] eq_refl (or_introl eq_refl) eq_refl)
      as (out_b & Hb & Hsplit).
    exists out, out_b. repeat split; assumption.
Defined.

(** C2, as the claim has it, fails: a [localhost] can be left in the
    result, put together from the text around a match and the replacement;
    and a literal in the path or the query is rewritten like one in the
    host. *)
Lemma transformDockerUrl_not_host_only :
  fst (transformDockerUrl docker_on "http://locallocalhosthost:3000/mcp" []) =
  Normal "http://localhost.docker.internalhost:3000/mcp"
  /\ includes "http://localhost.docker.internalhost:3000/mcp" "localhost" = true
  /\ fst (transformDockerUrl docker_on
            "http://example.com/localhost?next=127.0.0.1" []) =
     Normal "http://example.com/host.docker.internal?next=host.docker.internal".
Proof. repeat split; vm_compute; reflexivity. Qed.

(* ===================================================================== *)
(** * createMetaMcpClient *)
(* ===================================================================== *)

Lemma and_truthy_Some cond o s :
  and_truthy cond o = Some s <-> cond = true /\ o = Some s /\ s <> "".
Proof.
  unfold and_truthy. destruct cond; [|split; [discriminate | intros []; discriminate]].
  destruct o as [v|]; [|split; [discriminate | intros (_ & ? & _); discriminate]].
  destruct (String.eqb_spec v "") as [-> | Hne].
  - split; [discriminate|]. intros (_ & Hv & Hs). congruence.
  - split.
    + intros H. inversion H; subst. auto.
    + intros (_ & Hv & _). congruence.
Qed.

Lemma and_truthy_intro ty lit s (u : option string) :
  ty = Some lit -> u = Some s -> s <> "" ->
  and_truthy (strict_eq ty lit) u = Some s.
Proof.
  intros Hty Hu Hs. apply and_truthy_Some.
  split; [now apply strict_eq_true | auto].
Qed.

Ltac unfold_M :=
  unfold with_new_client, new_URL, console_log, console_error, sleep, emit,
    try_catch, mbind, M_bind, mret, M_ret.

Section Factory.

Context {URL : Type} (URL_new : string -> Exception + URL).
Implicit Types (process : ProcessEnv) (sp : ServerParameters) (w : World).

(** The unset and the [STDIO] type take the subprocess branch, whatever
    the other fields hold. *)
Lemma createMetaMcpClient_stdio process sp w :
  truthy (type sp) = false \/ type sp = Some "STDIO" ->
  createMetaMcpClient URL_new process sp w =
  (Normal
     {| client := Some metamcp_client;
        transport :=
          Some (StdioClientTransport
                  {| Stdio.command := or_default (command sp) "";
                     Stdio.args := args sp;
                     Stdio.env := env sp;
                     Stdio.stderr := "ignore" |}) |}, w).
Proof.
  intros Hty. unfold createMetaMcpClient.
  assert (Hcond : negb (truthy (type sp)) || strict_eq (type sp) "STDIO" = true).
  { destruct Hty as [-> | Hty]; [reflexivity|].
    apply strict_eq_true in Hty. rewrite Hty. apply orb_true_r. }
  rewrite Hcond. reflexivity.
Qed.

(** How a call completes: with the pair, with the no-transport result, or
    with what the [URL] constructor throws. *)
Lemma createMetaMcpClient_outcome process sp w :
  match fst (createMetaMcpClient URL_new process sp w) with
  | Normal r =>
      r = {| client := None; transport := None |}
      \/ exists t, r = {| client := Some metamcp_client; transport := Some t |}
  | Throw error =>
      exists s,
        url sp = Some s
        /\ s <> ""
        /\ (type sp = Some "SSE" \/ type sp = Some "STREAMABLE_HTTP")
        /\ URL_new (transformed process s) = inl error
  end.
Proof.
  unfold createMetaMcpClient.
  destruct (negb (truthy (type sp)) || strict_eq (type sp) "STDIO").
  { simpl. right. eexists. reflexivity. }
  destruct (and_truthy (strict_eq (type sp) "SSE") (url sp)) as [s|] eqn:Esse.
  { apply and_truthy_Some in Esse as (Hty & Hurl & Hs).
    apply strict_eq_true in Hty.
    destruct (transformDockerUrl_logs process s w) as [line Hrun].
    unfold_M. rewrite Hrun.
    destruct (oauth_tokens sp); destruct (URL_new (transformed process s)) eqn:Eurl;
      simpl; eauto 7. }
  destruct (and_truthy (strict_eq (type sp) "STREAMABLE_HTTP") (url sp))
    as [s|] eqn:Ehttp.
  { apply and_truthy_Some in Ehttp as (Hty & Hurl & Hs).
    apply strict_eq_true in Hty.
    destruct (transformDockerUrl_logs process s w) as [line Hrun].
    unfold_M. rewrite Hrun.
    destruct (oauth_tokens sp); destruct (URL_new (transformed process s)) eqn:Eurl;
      simpl; eauto 7. }
  simpl. left. reflexivity.
Qed.

(** C3, as the source has it.  A call returns the client with its
    transport or the no-transport result, or it throws: it throws exactly
    what the [URL] constructor throws on the (transformed) [url] of an
    [SSE] or [STREAMABLE_HTTP] input, and nothing in the factory catches
    it. *)
Theorem createMetaMcpClient_completion process sp w :
  match fst (createMetaMcpClient URL_new process sp w) with
  | Normal r =>
      r = {| client := None; transport := None |}
      \/ exists t, r = {| client := Some metamcp_client; transport := Some t |}
  | Throw error =>
      exists s,
        url sp = Some s
        /\ s <> ""
        /\ (type sp = Some "SSE" \/ type sp = Some "STREAMABLE_HTTP")
        /\ URL_new (transformed process s) = inl error
  end
  /\ forall s error,
      type sp = Some "SSE" \/ type sp = Some "STREAMABLE_HTTP" ->
      url sp = Some s -> s <> "" ->
      URL_new (transformed process s) = inl error ->
      fst (createMetaMcpClient URL_new process sp w) = Throw error.
Proof.
  split; [apply createMetaMcpClient_outcome|].
  intros s error Hty Hurl Hs Hrej.
  destruct (transformDockerUrl_logs process s w) as [line Hrun].
  unfold createMetaMcpClient.
  destruct Hty as [Hty | Hty].
  - rewrite (and_truthy_intro _ "SSE" s _ Hty Hurl Hs), Hty. simpl.
    unfold_M. rewrite Hrun.
    destruct (oauth_tokens sp); simpl; rewrite Hrej; reflexivity.
  - rewrite (and_truthy_intro _ "STREAMABLE_HTTP" s _ Hty Hurl Hs), Hty. simpl.
    unfold_M. rewrite Hrun.
    destruct (oauth_tokens sp); simpl; rewrite Hrej; reflexivity.
Qed.

(** C4, as the source has it.  With the type unset or [STDIO] and no
    [command], the factory still builds the subprocess transport: its
    command is the empty string. *)
Theorem createMetaMcpClient_stdio_without_command process sp w :
  truthy (type sp) = false \/ type sp = Some "STDIO" ->
  command sp = None ->
  createMetaMcpClient URL_new process sp w =
  (Normal
     {| client := Some metamcp_client;
        transport :=
          Some (StdioClientTransport
                  {| Stdio.command := "";
                     Stdio.args := args sp;
                     Stdio.env := env sp;
                     Stdio.stderr := "ignore" |}) |}, w).
Proof.
  intros Hty Hcmd.
  rewrite createMetaMcpClient_stdio by exact Hty.
  rewrite Hcmd. reflexivity.
Qed.

(** C9.  Whatever a call returns, the client is there if and only if the
    transport is. *)
Theorem createMetaMcpClient_all_or_nothing process sp w r w' :
  createMetaMcpClient URL_new process sp w = (Normal r, w') ->
  is_Some (client r) <-> is_Some (transport r).
Proof.
  intros Hrun.
  pose proof (createMetaMcpClient_outcome process sp w) as Hout.
  rewrite Hrun in Hout. simpl in Hout.
  destruct Hout as [-> | [t ->]]; simpl.
  - split; intros [x Hx]; discriminate.
  - split; intros _; eexists; reflexivity.
Qed.

(** C5.  For an [SSE] or [STREAMABLE_HTTP] input whose url is accepted,
    the transport is built for that URL.  With a credential, its
    [requestInit] holds the one header [Authorization: Bearer
    <access_token>], and for [SSE] the fetch of the event stream puts the
    same header on every call it forwards, whatever [init] it is given;
    without a credential the transport gets no options at all. *)
Theorem createMetaMcpClient_bearer process sp w s (u : URL) :
  type sp = Some "SSE" \/ type sp = Some "STREAMABLE_HTTP" ->
  url sp = Some s -> s <> "" ->
  URL_new (transformed process s) = inr u ->
  exists t,
    fst (createMetaMcpClient URL_new process sp w) =
    Normal {| client := Some metamcp_client; transport := Some t |}
    /\ transport_url t = Some u
    /\ match oauth_tokens sp with
       | Some tokens =>
           let bearer : gmap string string :=
             {[ "Authorization" := "Bearer " ++ access_token tokens ]} in
           request_headers t = Some bearer
           /\ bearer !! "Authorization" =
              Some ("Bearer " ++ access_token tokens)
           /\ (type sp = Some "SSE" ->
               exists f,
                 event_source_fetch t = Some f
                 /\ forall input init,
                     fetch_input (f input init) = input
                     /\ headers (fetch_init (f input init)) = Some bearer)
       | None => transport_options t = None
       end.
Proof.
  intros Hty Hurl Hs Hacc.
  destruct (transformDockerUrl_logs process s w) as [line Hrun].
  unfold createMetaMcpClient.
  destruct Hty as [Hty | Hty].
  - rewrite (and_truthy_intro _ "SSE" s _ Hty Hurl Hs), Hty. simpl.
    unfold_M. rewrite Hrun.
    destruct (oauth_tokens sp) as [tokens|]; simpl; rewrite Hacc; simpl;
      eexists; (split; [reflexivity|]); (split; [reflexivity|]).
    + split; [reflexivity|]. split; [apply lookup_insert_eq|].
      intros _. eexists. split; [reflexivity|].
      intros input init. split; reflexivity.
    + reflexivity.
  - rewrite (and_truthy_intro _ "STREAMABLE_HTTP" s _ Hty Hurl Hs), Hty. simpl.
    unfold_M. rewrite Hrun.
    destruct (oauth_tokens sp) as [tokens|]; simpl; rewrite Hacc; simpl;
      eexists; (split; [reflexivity|]); (split; [reflexivity|]).
    + split; [reflexivity|]. split; [apply lookup_insert_eq|].
      intros Habs. discriminate.
    + reflexivity.
Qed.

End Factory.

Lemma createMetaMcpClient_completion_witness :
  fst (createMetaMcpClient URL_scheme_gate docker_unset params_sse_malformed [])
  = Throw "TypeError: Invalid URL".
Proof.
  apply (proj2 (createMetaMcpClient_completion URL_scheme_gate docker_unset
                  params_sse_malformed []) "not a url" "TypeError: Invalid URL").
  - left. reflexivity.
  - reflexivity.
  - discriminate.
  - reflexivity.
Defined.

(** C3, as the claim has it, fails: the [URL] constructor throws on a url it
    cannot parse, and the exception leaves the factory. *)
Lemma createMetaMcpClient_throws_on_malformed_url :
  createMetaMcpClient URL_scheme_gate docker_unset params_sse_malformed [] =
  (Throw "TypeError: Invalid URL",
   [ConsoleLog "Docker URL transformation disabled: not a url";
    ConsoleLog "Creating SSE transport for: not a url"]).
Proof. vm_compute. reflexivity. Qed.

Lemma createMetaMcpClient_stdio_without_command_witness :
  createMetaMcpClient URL_scheme_gate docker_unset params_no_command [] =
  (Normal
     {| client := Some metamcp_client;
        transport :=
          Some (StdioClientTransport
                  {| Stdio.command := ""; Stdio.args := None;
                     Stdio.env := None; Stdio.stderr := "ignore" |}) |}, []).
Proof.
  apply (createMetaMcpClient_stdio_without_command URL_scheme_gate
           docker_unset params_no_command []).
  - left. reflexivity.
  - reflexivity.
Defined.

(** C4, as the claim has it, fails: without a [command] the factory returns
    a subprocess transport, not the no-transport result. *)
Lemma createMetaMcpClient_builds_stdio_without_command :
  exists t,
    fst (createMetaMcpClient URL_scheme_gate docker_unset params_no_command [])
    = Normal {| client := Some metamcp_client; transport := Some t |}
    /\ t = StdioClientTransport
             {| Stdio.command := ""; Stdio.args := None;
                Stdio.env := None; Stdio.stderr := "ignore" |}.
Proof. eexists. split; reflexivity. Qed.

Lemma createMetaMcpClient_all_or_nothing_witness :
  is_Some (Some metamcp_client) <->
  is_Some (Some (StdioClientTransport (URL := string)
                   {| Stdio.command := ""; Stdio.args := None;
                      Stdio.env := None; Stdio.stderr := "ignore" |})).
Proof.
  apply (createMetaMcpClient_all_or_nothing URL_scheme_gate docker_unset
           params_no_command []
           {| client := Some metamcp_client;
              transport :=
                Some (StdioClientTransport
                        {| Stdio.command := ""; Stdio.args := None;
                           Stdio.env := None; Stdio.stderr := "ignore" |}) |}
           []).
  reflexivity.
Defined.

Lemma createMetaMcpClient_bearer_witness :
  exists t : Transport string,
    fst (createMetaMcpClient URL_scheme_gate docker_on params_sse_token []) =
    Normal {| client := Some metamcp_client; transport := Some t |}
    /\ transport_url t = Some "http://host.docker.internal:3000/mcp"
    /\ request_headers t = Some {[ "Authorization" := "Bearer tok123" ]}.
Proof.
  destruct (createMetaMcpClient_bearer URL_scheme_gate docker_on
              params_sse_token [] "http://localhost:3000/mcp"
              "http://host.docker.internal:3000/mcp")
    as (t & Hrun & Hurl & Hhdr & _).
  - left. reflexivity.
  - reflexivity.
  - discriminate.
  - reflexivity.
  - exists t. repeat split; assumption.
Defined.

(* ===================================================================== *)
(** * connectMetaMcpClient *)
(* ===================================================================== *)

Local Open Scope list_scope.

Lemma calls_app kind (w w' : World) :
  calls kind (w ++ w') = calls kind w + calls kind w'.
Proof. induction w as [|e w IH]; simpl; [reflexivity | rewrite IH; lia]. Qed.

Lemma after_last_connect_app (w l : World) :
  0 < calls is_ClientConnect l ->
  after_last_connect (w ++ l) = after_last_connect l.
Proof.
  intros Hl. induction w as [|e w IH]; [reflexivity|].
  simpl. rewrite calls_app.
  destruct (Nat.ltb_spec 0 (calls is_ClientConnect w + calls is_ClientConnect l));
    [exact IH | lia].
Qed.

Section Establisher.

Context {URL : Type}.
Implicit Types (sdk : Sdk) (client : Client) (transport : Transport URL)
  (w : World).

Lemma connect_while_true sdk client transport count w :
  connect_while sdk client transport count true w =
  match connect_pass sdk client transport count w with
  | (Normal (Returned connected), w') => (Normal (Some connected), w')
  | (Normal (Caught count' retry'), w') =>
      connect_while sdk client transport count' retry' w'
  | (Throw error, w') => (Throw error, w')
  end.
Proof.
  rewrite connect_while_equation_1. unfold inspect.
  enough (H : forall o (e : connect_pass sdk client transport count w = o),
             connect_while_unfold_clause_2 URL sdk client transport count w
               (exist _ o e) =
             match o with
             | (Normal (Returned connected), w') => (Normal (Some connected), w')
             | (Normal (Caught count' retry'), w') =>
                 connect_while sdk client transport count' retry' w'
             | (Throw error, w') => (Throw error, w')
             end) by apply H.
  intros [[[connected | count' retry'] | error] w'] e; reflexivity.
Qed.

(** One pass: the connect succeeds and the handle is returned, ... *)
Lemma connect_pass_connected sdk client transport count w :
  connect_outcome sdk (calls is_ClientConnect w) = None ->
  connect_pass sdk client transport count w =
  (Normal (Returned (connected_client sdk client)), (w ++ [ClientConnect])%list).
Proof.
  intros Hok. unfold connect_pass, client_connect. unfold_M.
  rewrite Hok. reflexivity.
Qed.

(** ... or it fails: the error is logged and, when attempts remain, the
    client is closed, whatever that close answers, and the timer runs. *)
Lemma connect_pass_failed sdk client transport count w error :
  connect_outcome sdk (calls is_ClientConnect w) = Some error ->
  connect_pass sdk client transport count w =
  (Normal (Caught (S count) (S count <? retries)%nat),
   (w ++ (if (S count <? retries)%nat then retry_events error
          else final_failure_events error))%list).
Proof.
  intros Hfail. unfold connect_pass, client_connect, client_close. unfold_M.
  rewrite Hfail. simpl.
  destruct (S count <? retries)%nat.
  - destruct (answer _); simpl; rewrite <- !app_assoc; reflexivity.
  - simpl. rewrite <- !app_assoc. reflexivity.
Qed.

Lemma retry_events_connects error :
  calls is_ClientConnect (retry_events error) = 1.
Proof. reflexivity. Qed.

(** The four ways a call can go, by what the three connects answer. *)
Lemma connectMetaMcpClient_cases sdk client transport w :
  connectMetaMcpClient sdk client transport w =
  let n := calls is_ClientConnect w in
  let connected := Normal (Some (connected_client sdk client)) in
  match connect_outcome sdk n with
  | None => (connected, w ++ [ClientConnect])
  | Some e0 =>
      match connect_outcome sdk (S n) with
      | None => (connected, w ++ retry_events e0 ++ [ClientConnect])
      | Some e1 =>
          match connect_outcome sdk (S (S n)) with
          | None =>
              (connected,
               w ++ retry_events e0 ++ retry_events e1 ++ [ClientConnect])
          | Some e2 =>
              (Normal None,
               w ++ retry_events e0 ++ retry_events e1
                 ++ final_failure_events e2)
          end
      end
  end%list.
Proof.
  unfold connectMetaMcpClient. cbv zeta.
  rewrite connect_while_true.
  destruct (connect_outcome sdk (calls is_ClientConnect w)) as [e0|] eqn:E0;
    [|now rewrite connect_pass_connected].
  rewrite (connect_pass_failed _ _ _ _ _ e0) by exact E0.
  change (1 <? retries)%nat with true. cbv iota.
  rewrite connect_while_true.
  assert (C1 : calls is_ClientConnect (w ++ retry_events e0) =
               S (calls is_ClientConnect w)).
  { rewrite calls_app, retry_events_connects. lia. }
  destruct (connect_outcome sdk (S (calls is_ClientConnect w))) as [e1|] eqn:E1.
  2:{ rewrite connect_pass_connected by (rewrite C1; exact E1).
      rewrite <- app_assoc. reflexivity. }
  rewrite (connect_pass_failed _ _ _ _ _ e1) by (rewrite C1; exact E1).
  change (2 <? retries)%nat with true. cbv iota.
  rewrite connect_while_true.
  assert (C2 : calls is_ClientConnect ((w ++ retry_events e0) ++ retry_events e1) =
               S (S (calls is_ClientConnect w))).
  { rewrite calls_app, C1, retry_events_connects. lia. }
  destruct (connect_outcome sdk (S (S (calls is_ClientConnect w))))
    as [e2|] eqn:E2.
  2:{ rewrite connect_pass_connected by (rewrite C2; exact E2).
      rewrite <- !app_assoc. reflexivity. }
  rewrite (connect_pass_failed _ _ _ _ _ e2) by (rewrite C2; exact E2).
  change (3 <? retries)%nat with false. cbv iota.
  rewrite connect_while_equation_2.
  rewrite <- !app_assoc. reflexivity.
Qed.

(** As long as the connects fail and attempts remain, each failure is
    followed by its error line, a close of the client, the wait and the next
    connect, whatever the closes answer. *)
Lemma connectMetaMcpClient_retry_prefix sdk client transport w
    (errors : list Exception) :
  length errors < retries ->
  (forall i error,
      errors !! i = Some error ->
      connect_outcome sdk (calls is_ClientConnect w + i) = Some error) ->
  exists rest,
    snd (connectMetaMcpClient sdk client transport w) =
    w ++ concat (map retry_events errors) ++ ClientConnect :: rest.
Proof.
  intros Hlen Hfail.
  rewrite connectMetaMcpClient_cases. cbv zeta.
  destruct errors as [|e0 [|e1 [|e2 errors]]]; simpl in Hlen.
  - destruct (connect_outcome sdk (calls is_ClientConnect w));
      [|eexists; reflexivity].
    destruct (connect_outcome sdk (S (calls is_ClientConnect w)));
      [|eexists; reflexivity].
    destruct (connect_outcome sdk (S (S (calls is_ClientConnect w))));
      eexists; reflexivity.
  - pose proof (Hfail 0 e0 eq_refl) as H0.
    rewrite Nat.add_0_r in H0. rewrite H0.
    destruct (connect_outcome sdk (S (calls is_ClientConnect w)));
      [|eexists; reflexivity].
    destruct (connect_outcome sdk (S (S (calls is_ClientConnect w))));
      eexists; reflexivity.
  - pose proof (Hfail 0 e0 eq_refl) as H0.
    pose proof (Hfail 1 e1 eq_refl) as H1.
    rewrite Nat.add_0_r in H0. rewrite Nat.add_1_r in H1.
    rewrite H0, H1.
    destruct (connect_outcome sdk (S (S (calls is_ClientConnect w))));
      eexists; simpl; rewrite <- ?app_assoc; reflexivity.
  - unfold retries in Hlen. lia.
Qed.

End Establisher.

Lemma bind_run {A B : Type} (m : M A) (k : A -> M B) (w : World) :
  (m ≫= k) w =
  match m w with
  | (Normal a, w') => k a w'
  | (Throw error, w') => (Throw error, w')
  end.
Proof. reflexivity. Qed.

(** An error line of a concrete trace is one of its events. *)
Ltac in_console_error H :=
  repeat (destruct H as [H|H]; [try discriminate; inversion H; eauto|]);
  destruct H.

Section EstablisherProperties.

Context {URL : Type}.
Implicit Types (sdk : Sdk) (client : Client) (transport : Transport URL)
  (w : World).

(** C6.  When the connect fails on the first attempts, fewer than
    [retries] of them, and then succeeds, the call returns a handle for
    the client straight after the connect that succeeded.  Each failure
    before it is followed by one close of the client and one wait of 2500
    milliseconds, then the next connect: for two failures, two closes and
    two waits; for none, the handle at once. *)
Theorem connectMetaMcpClient_succeeds_after_failures
    sdk client transport w (errors : list Exception) :
  length errors < retries ->
  (forall i error,
      errors !! i = Some error ->
      connect_outcome sdk (calls is_ClientConnect w + i) = Some error) ->
  connect_outcome sdk (calls is_ClientConnect w + length errors) = None ->
  exists connected new,
    connectMetaMcpClient sdk client transport w =
    (Normal (Some connected), w ++ new)
    /\ ConnectedClient.client connected = client
    /\ new = concat (map retry_events errors) ++ [ClientConnect]
    /\ calls is_ClientConnect new = S (length errors)
    /\ calls is_ClientClose new = length errors
    /\ sleeps new = repeat 2500 (length errors)
    /\ calls is_TransportClose new = 0.
Proof.
  intros Hlen Hfail Hok.
  exists (connected_client sdk client).
  rewrite connectMetaMcpClient_cases. cbv zeta.
  destruct errors as [|e0 [|e1 [|e2 errors]]]; simpl in Hlen, Hok.
  - rewrite Nat.add_0_r in Hok. rewrite Hok.
    eexists. repeat split.
  - pose proof (Hfail 0 e0 eq_refl) as H0.
    rewrite Nat.add_0_r in H0. rewrite Nat.add_1_r in Hok.
    rewrite H0, Hok.
    eexists. repeat split.
  - pose proof (Hfail 0 e0 eq_refl) as H0.
    pose proof (Hfail 1 e1 eq_refl) as H1.
    rewrite Nat.add_0_r in H0. rewrite Nat.add_1_r in H1.
    replace (calls is_ClientConnect w + 2)
      with (S (S (calls is_ClientConnect w))) in Hok by lia.
    rewrite H0, H1, Hok.
    eexists. repeat split.
  - unfold retries in Hlen. lia.
Qed.

(** C1, as the source has it.  When all three connects fail the call
    returns no handle and throws nothing.  The client is closed after the
    first and after the second failure; after the third nothing is
    closed, and [transport.close()] is not called at all. *)
Theorem connectMetaMcpClient_exhausted sdk client transport w e0 e1 e2 :
  connect_outcome sdk (calls is_ClientConnect w) = Some e0 ->
  connect_outcome sdk (S (calls is_ClientConnect w)) = Some e1 ->
  connect_outcome sdk (S (S (calls is_ClientConnect w))) = Some e2 ->
  exists new,
    connectMetaMcpClient sdk client transport w = (Normal None, w ++ new)
    /\ new = retry_events e0 ++ retry_events e1 ++ final_failure_events e2
    /\ calls is_ClientConnect new = 3
    /\ calls is_ClientClose new = 2
    /\ calls is_TransportClose new = 0
    /\ after_last_connect (w ++ new) = [ConsoleError (connect_error_line e2)].
Proof.
  intros H0 H1 H2.
  rewrite connectMetaMcpClient_cases. cbv zeta. rewrite H0, H1, H2.
  eexists. split; [reflexivity|]. split; [reflexivity|].
  repeat split.
  rewrite after_last_connect_app; [reflexivity | simpl; lia].
Qed.

(** A handle that is returned is the one the [try] block builds. *)
Lemma connectMetaMcpClient_handle sdk client transport w connected w' :
  connectMetaMcpClient sdk client transport w = (Normal (Some connected), w') ->
  connected = connected_client sdk client.
Proof.
  rewrite connectMetaMcpClient_cases. cbv zeta.
  destruct (connect_outcome sdk _); [|congruence].
  destruct (connect_outcome sdk _); [|congruence].
  destruct (connect_outcome sdk _); congruence.
Qed.

(** C7, as the source has it.  The cleanup of a returned handle calls
    [transport.close()] and then [client.close()].  It keeps no record of
    having run: what it throws is what the closes throw, a close of the
    transport that throws leaves the client unclosed, and a second
    cleanup calls both closes again. *)
Theorem cleanup_closes_transport_then_client
    sdk client transport w connected w' :
  connectMetaMcpClient sdk client transport w = (Normal (Some connected), w') ->
  forall w1,
    ConnectedClient.cleanup connected w1 =
    match transport_close_outcome sdk (calls is_TransportClose w1) with
    | Some error => (Throw error, w1 ++ [TransportClose])
    | None =>
        (answer (client_close_outcome sdk (calls is_ClientClose w1)),
         w1 ++ [TransportClose; ClientClose])
    end
    /\ (transport_close_outcome sdk (calls is_TransportClose w1) = None ->
        client_close_outcome sdk (calls is_ClientClose w1) = None ->
        transport_close_outcome sdk (S (calls is_TransportClose w1)) = None ->
        client_close_outcome sdk (S (calls is_ClientClose w1)) = None ->
        (ConnectedClient.cleanup connected ;;
         ConnectedClient.cleanup connected) w1 =
        (Normal tt,
         w1 ++ [TransportClose; ClientClose; TransportClose; ClientClose])).
Proof.
  intros Hrun w1.
  apply connectMetaMcpClient_handle in Hrun. subst connected.
  assert (Hone : forall w2,
    ConnectedClient.cleanup (connected_client sdk client) w2 =
    match transport_close_outcome sdk (calls is_TransportClose w2) with
    | Some error => (Throw error, w2 ++ [TransportClose])
    | None =>
        (answer (client_close_outcome sdk (calls is_ClientClose w2)),
         w2 ++ [TransportClose; ClientClose])
    end).
  { intros w2. simpl. unfold transport_close, client_close. unfold_M.
    destruct (transport_close_outcome sdk _); simpl; [reflexivity|].
    rewrite calls_app, Nat.add_0_r, <- app_assoc. reflexivity. }
  split; [apply Hone|].
  intros Ht0 Hc0 Ht1 Hc1.
  rewrite (bind_run (ConnectedClient.cleanup (connected_client sdk client))).
  rewrite (Hone w1), Ht0, Hc0. unfold answer. cbv beta iota.
  rewrite Hone, !calls_app. simpl.
  rewrite !Nat.add_1_r, Ht1, Hc1, <- app_assoc. reflexivity.
Qed.

(** C8.  Every failed connect that is not the last one allowed is
    followed by its error line, one close of the client, the wait and then
    the next connect: when the first connects of a call throw [errors],
    fewer than [retries] of them, the call makes for each of them the events
    of [retry_events] and then connects again, whatever the closes of the
    client answer.  Two runs against the same connect answers make the same
    calls in the same order and end alike, whatever the closes answer in
    either; a run never throws; and every error line on the console is the
    line of an error thrown by a connect. *)
Theorem connectMetaMcpClient_close_errors_swallowed
    sdk sdk' client transport w :
  (forall n, connect_outcome sdk n = connect_outcome sdk' n) ->
  (forall errors : list Exception,
      length errors < retries ->
      (forall i error,
          errors !! i = Some error ->
          connect_outcome sdk (calls is_ClientConnect w + i) = Some error) ->
      exists rest,
        snd (connectMetaMcpClient sdk client transport w) =
        w ++ concat (map retry_events errors) ++ ClientConnect :: rest
        /\ snd (connectMetaMcpClient sdk' client transport w) =
           w ++ concat (map retry_events errors) ++ ClientConnect :: rest)
  /\ snd (connectMetaMcpClient sdk client transport w) =
     snd (connectMetaMcpClient sdk' client transport w)
  /\ completion_client (fst (connectMetaMcpClient sdk client transport w)) =
     completion_client (fst (connectMetaMcpClient sdk' client transport w))
  /\ (exists r, fst (connectMetaMcpClient sdk client transport w) = Normal r)
  /\ exists errors last,
      snd (connectMetaMcpClient sdk client transport w) =
      w ++ concat (map retry_events errors) ++ last
      /\ (last = [ClientConnect]
          \/ exists error, last = final_failure_events error)
      /\ forall line,
          In (ConsoleError line) (concat (map retry_events errors) ++ last) ->
          exists n error,
            connect_outcome sdk n = Some error
            /\ line = connect_error_line error.
Proof.
  intros Hsame.
  assert (Htrace : snd (connectMetaMcpClient sdk client transport w) =
                   snd (connectMetaMcpClient sdk' client transport w)).
  { rewrite !connectMetaMcpClient_cases. cbv zeta. rewrite <- !Hsame.
    destruct (connect_outcome sdk _); [|reflexivity].
    destruct (connect_outcome sdk _); [|reflexivity].
    destruct (connect_outcome sdk _); reflexivity. }
  split.
  { intros errors Hlen Hfail.
    destruct (connectMetaMcpClient_retry_prefix sdk client transport w
                errors Hlen Hfail) as [rest Hrest].
    exists rest. split; [exact Hrest | now rewrite <- Htrace]. }
  split; [exact Htrace|]. clear Htrace.
  rewrite !connectMetaMcpClient_cases. cbv zeta.
  rewrite <- !Hsame.
  destruct (connect_outcome sdk (calls is_ClientConnect w)) as [e0|] eqn:E0.
  2:{ repeat split; eauto.
      exists [], [ClientConnect]. split; [reflexivity|]. split; [now left|].
      simpl. intros line H. in_console_error H. }
  destruct (connect_outcome sdk (S (calls is_ClientConnect w))) as [e1|] eqn:E1.
  2:{ repeat split; eauto.
      exists [e0], [ClientConnect]. split; [reflexivity|]. split; [now left|].
      simpl. intros line H. in_console_error H. }
  destruct (connect_outcome sdk (S (S (calls is_ClientConnect w))))
    as [e2|] eqn:E2.
  - repeat split; eauto.
    exists [e0; e1], (final_failure_events e2).
    split; [reflexivity|]. split; [right; eauto|].
    simpl. intros line H. in_console_error H.
  - repeat split; eauto.
    exists [e0; e1], [ClientConnect].
    split; [reflexivity|]. split; [now left|].
    simpl. intros line H. in_console_error H.
Qed.

End EstablisherProperties.

Lemma connectMetaMcpClient_succeeds_after_failures_witness :
  exists connected new,
    connectMetaMcpClient sdk_third_attempt metamcp_client echo_transport [] =
    (Normal (Some connected), new)
    /\ ConnectedClient.client connected = metamcp_client
    /\ calls is_ClientConnect new = 3
    /\ calls is_ClientClose new = 2
    /\ sleeps new = [2500; 2500].
Proof.
  destruct (connectMetaMcpClient_succeeds_after_failures
              sdk_third_attempt metamcp_client echo_transport []
              ["Error: connect ECONNREFUSED"; "Error: connect ECONNREFUSED"])
    as (connected & new & Hrun & Hclient & _ & Hconnects & Hcloses & Hsleeps & _).
  - unfold retries. simpl. lia.
  - intros [|[|i]] error H; simpl in H; try discriminate;
      injection H as <-; reflexivity.
  - reflexivity.
  - exists connected, new. repeat split; assumption.
Defined.

Lemma connectMetaMcpClient_exhausted_witness :
  exists new,
    connectMetaMcpClient sdk_refusing metamcp_client echo_transport [] =
    (Normal None, new)
    /\ calls is_ClientConnect new = 3
    /\ calls is_ClientClose new = 2
    /\ calls is_TransportClose new = 0.
Proof.
  destruct (connectMetaMcpClient_exhausted
              sdk_refusing metamcp_client echo_transport []
              "Error: connect ECONNREFUSED" "Error: connect ECONNREFUSED"
              "Error: connect ECONNREFUSED" eq_refl eq_refl eq_refl)
    as (new & Hrun & _ & Hconnects & Hcloses & Htransport & _).
  exists new. repeat split; assumption.
Defined.

(** C1, as the claim has it, fails: after the third failed connect the call
    returns without closing the client again, and the transport is never
    closed. *)
Lemma connectMetaMcpClient_leaves_last_attempt_unclosed :
  exists w',
    connectMetaMcpClient sdk_refusing metamcp_client echo_transport [] =
    (Normal None, w')
    /\ after_last_connect w' =
       [ConsoleError
          "Error connecting to MetaMCP client: Error: connect ECONNREFUSED"]
    /\ calls is_ClientClose (after_last_connect w') = 0
    /\ calls is_TransportClose w' = 0.
Proof.
  eexists. split; [vm_compute; reflexivity|].
  split; [reflexivity|]. split; reflexivity.
Qed.

Lemma cleanup_closes_transport_then_client_witness :
  (ConnectedClient.cleanup (connected_client sdk_ready metamcp_client) ;;
   ConnectedClient.cleanup (connected_client sdk_ready metamcp_client))
    [ClientConnect] =
  (Normal tt,
   [ClientConnect; TransportClose; ClientClose; TransportClose; ClientClose]).
Proof.
  apply (proj2 (cleanup_closes_transport_then_client
                  sdk_ready metamcp_client echo_transport []
                  (connected_client sdk_ready metamcp_client) [ClientConnect]
                  eq_refl [ClientConnect]));
    reflexivity.
Defined.

(** C7, as the claim has it, fails: the second cleanup of a handle is not a
    no-op; it closes the transport and the client a second time. *)
Lemma cleanup_twice_closes_twice :
  exists connected w1 w2 w3,
    connectMetaMcpClient sdk_ready metamcp_client echo_transport [] =
    (Normal (Some connected), w1)
    /\ ConnectedClient.cleanup connected w1 = (Normal tt, w2)
    /\ ConnectedClient.cleanup connected w2 = (Normal tt, w3)
    /\ w3 <> w2
    /\ calls is_TransportClose w3 = 2
    /\ calls is_ClientClose w3 = 2.
Proof.
  exists (connected_client sdk_ready metamcp_client), [ClientConnect],
    [ClientConnect; TransportClose; ClientClose],
    [ClientConnect; TransportClose; ClientClose; TransportClose; ClientClose].
  split; [reflexivity|]. split; [reflexivity|]. split; [reflexivity|].
  split; [discriminate|]. split; reflexivity.
Qed.

Lemma connectMetaMcpClient_close_errors_swallowed_witness :
  (exists rest,
      snd (connectMetaMcpClient sdk_third_attempt metamcp_client
             echo_transport []) =
      retry_events "Error: connect ECONNREFUSED"
        ++ retry_events "Error: connect ECONNREFUSED"
        ++ ClientConnect :: rest)
  /\ snd (connectMetaMcpClient sdk_third_attempt metamcp_client
            echo_transport []) =
     snd (connectMetaMcpClient sdk_third_attempt_quiet metamcp_client
            echo_transport [])
  /\ completion_client
       (fst (connectMetaMcpClient sdk_third_attempt metamcp_client
               echo_transport [])) =
     completion_client
       (fst (connectMetaMcpClient sdk_third_attempt_quiet metamcp_client
               echo_transport [])).
Proof.
  destruct (connectMetaMcpClient_close_errors_swallowed
              sdk_third_attempt sdk_third_attempt_quiet
              metamcp_client echo_transport [])
    as (Hretry & Htrace & Hend & _).
  - intros n. reflexivity.
  - split; [|split; assumption].
    destruct (Hretry ["Error: connect ECONNREFUSED";
                      "Error: connect ECONNREFUSED"])
      as (rest & Hrest & _).
    + unfold retries. simpl. lia.
    + intros [|[|i]] error H; simpl in H; try discriminate;
        injection H as <-; reflexivity.
    + exists rest. exact Hrest.
Defined.

(* ===================================================================== *)
(** * Further properties of transformDockerUrl *)
(* ===================================================================== *)

Local Open Scope string_scope.

Lemma loopback_free_unfold c s :
  loopback_free (String c s) =
  match loopback_exec (String c s) with
  | Some _ => false
  | None => loopback_free s
  end.
Proof.
  unfold loopback_free, loopback_exec. rewrite !includes_cons.
  destruct (strip_prefix "localhost" (String c s)); [reflexivity|].
  destruct (strip_prefix "127.0.0.1" (String c s)); [|reflexivity].
  apply andb_false_r.
Qed.

(** Each match makes the string longer: nine characters give way to
    twenty. *)
Lemma replace_loopback_grows s :
  String.length s <= String.length (replace_loopback "host.docker.internal" s)
  /\ (loopback_free s = false ->
      String.length s < String.length (replace_loopback "host.docker.internal" s)).
Proof.
  apply (replace_loopback_scan "host.docker.internal"
           (fun s out =>
              String.length s <= String.length out
              /\ (loopback_free s = false -> String.length s < String.length out))).
  - split; [reflexivity | discriminate].
  - intros c s0 rest E [IH _].
    apply loopback_exec_length in E.
    rewrite string_length_app. cbn [String.length] in *.
    split; intros; lia.
  - intros c s0 E [IH1 IH2].
    rewrite loopback_free_unfold, E. cbn [String.length].
    split; [lia|]. intros Hfree. apply IH2 in Hfree. lia.
Qed.

(** X1.  With the flag on, the URL comes back unchanged exactly when it
    holds neither literal; otherwise the result is strictly longer.  The
    result is never shorter than the URL. *)
Theorem transformDockerUrl_changes_iff process url w :
  TRANSFORM_LOCALHOST_TO_DOCKER_INTERNAL process = Some "true" ->
  exists out,
    fst (transformDockerUrl process url w) = Normal out
    /\ (out = url <-> loopback_free url = true)
    /\ String.length url <= String.length out
    /\ (loopback_free url = false -> String.length url < String.length out).
Proof.
  intros Hflag. apply strict_eq_true in Hflag.
  rewrite transformDockerUrl_returns. unfold transformed. rewrite Hflag.
  eexists. split; [reflexivity|].
  destruct (replace_loopback_grows url) as [Hle Hlt].
  split; [|split; assumption].
  split.
  - intros Heq. destruct (loopback_free url) eqn:Hfree; [reflexivity|].
    specialize (Hlt eq_refl). rewrite Heq in Hlt. lia.
  - apply replace_loopback_free.
Qed.

Lemma transformDockerUrl_changes_iff_witness :
  exists out,
    fst (transformDockerUrl docker_on "http://example.com:8080/localhost" []) =
    Normal out
    /\ String.length "http://example.com:8080/localhost" < String.length out.
Proof.
  destruct (transformDockerUrl_changes_iff docker_on
              "http://example.com:8080/localhost" [] eq_refl)
    as (out & Hout & _ & _ & Hlt).
  exists out. split; [exact Hout | apply Hlt; reflexivity].
Defined.

(** X2.  A character that occurs in neither literal ([:], [/], [?], [#],
    [@], ...) cuts the URL in two pieces that are transformed on their own:
    no match reaches across it, whatever the flag. *)
Theorem transformDockerUrl_splits_at_delimiter process d a b w wa wb :
  pattern_char d = false ->
  exists out_a out_b,
    fst (transformDockerUrl process a wa) = Normal out_a
    /\ fst (transformDockerUrl process b wb) = Normal out_b
    /\ fst (transformDockerUrl process (a ++ String d b) w) =
       Normal (out_a ++ String d out_b).
Proof.
  intros Hd. rewrite !transformDockerUrl_returns. unfold transformed.
  do 2 eexists. split; [reflexivity|]. split; [reflexivity|].
  destruct (strict_eq _ _); [|reflexivity].
  now rewrite replace_loopback_delimiter.
Qed.

Lemma transformDockerUrl_splits_at_delimiter_witness :
  exists out_a out_b,
    fst (transformDockerUrl docker_on "user:127.0.0.1" []) = Normal out_a
    /\ fst (transformDockerUrl docker_on "localhost:3000" []) = Normal out_b
    /\ fst (transformDockerUrl docker_on "user:127.0.0.1@localhost:3000" []) =
       Normal (out_a ++ String "@" out_b).
Proof.
  apply (transformDockerUrl_splits_at_delimiter docker_on "@"
           "user:127.0.0.1" "localhost:3000" [] [] []).
  reflexivity.
Defined.

(** X3.  Transforming a result once more changes nothing when that result
    holds no [localhost]; without that condition it can: the transformation
    is not idempotent on every string. *)
Theorem transformDockerUrl_twice process :
  (forall url w w' out,
      fst (transformDockerUrl process url w) = Normal out ->
      includes out "localhost" = false ->
      fst (transformDockerUrl process out w') = Normal out)
  /\ (TRANSFORM_LOCALHOST_TO_DOCKER_INTERNAL process = Some "true" ->
      exists url out out',
        fst (transformDockerUrl process url []) = Normal out
        /\ fst (transformDockerUrl process out []) = Normal out'
        /\ out' <> out).
Proof.
  split.
  - intros url w w' out Hout Hlocal.
    rewrite transformDockerUrl_returns in *. unfold transformed in *.
    destruct (strict_eq _ _); [|reflexivity].
    injection Hout as <-. f_equal.
    apply replace_loopback_free. unfold loopback_free.
    rewrite Hlocal, replace_loopback_no_ip. reflexivity.
  - intros Hflag. apply strict_eq_true in Hflag.
    exists "locallocalhosthost", "localhost.docker.internalhost",
      "host.docker.internal.docker.internalhost".
    rewrite !transformDockerUrl_returns. unfold transformed. rewrite Hflag.
    split; [reflexivity|]. split; [reflexivity|]. discriminate.
Qed.

Lemma transformDockerUrl_twice_witness :
  fst (transformDockerUrl docker_on "http://host.docker.internal:3000/mcp" []) =
  Normal "http://host.docker.internal:3000/mcp".
Proof.
  apply (proj1 (transformDockerUrl_twice docker_on)
           "http://localhost:3000/mcp" [] []
           "http://host.docker.internal:3000/mcp");
    reflexivity.
Defined.

(* ===================================================================== *)
(** * Further properties of createMetaMcpClient *)
(* ===================================================================== *)

(** X4.  On the subprocess branch nothing but [command], [args] and [env]
    counts.  Two inputs whose type is unset, empty or [STDIO] and that agree
    on these three fields get the same subprocess parameters, whatever
    their [url] and credential, the environment flag and the [URL]
    constructor are; the standard error of the subprocess is set to
    [ignore]; nothing is logged and nothing is thrown. *)
Theorem createMetaMcpClient_stdio_ignores_http_fields
    {URL URL' : Type} (URL_new : string -> Exception + URL)
    (URL_new' : string -> Exception + URL')
    (process process' : ProcessEnv) (sp sp' : ServerParameters) (w : World) :
  truthy (type sp) = false \/ type sp = Some "STDIO" ->
  truthy (type sp') = false \/ type sp' = Some "STDIO" ->
  command sp = command sp' -> args sp = args sp' -> env sp = env sp' ->
  exists server,
    createMetaMcpClient URL_new process sp w =
    (Normal {| client := Some metamcp_client;
               transport := Some (StdioClientTransport server) |}, w)
    /\ createMetaMcpClient URL_new' process' sp' w =
       (Normal {| client := Some metamcp_client;
                  transport := Some (StdioClientTransport server) |}, w)
    /\ Stdio.stderr server = "ignore"
    /\ Stdio.command server = or_default (command sp) ""
    /\ Stdio.args server = args sp
    /\ Stdio.env server = env sp.
Proof.
  intros Hty Hty' Hcmd Hargs Henv.
  eexists. split; [apply createMetaMcpClient_stdio; exact Hty|].
  split; [|repeat split].
  rewrite createMetaMcpClient_stdio by exact Hty'.
  rewrite Hcmd, Hargs, Henv. reflexivity.
Qed.

Lemma createMetaMcpClient_stdio_ignores_http_fields_witness :
  exists server,
    createMetaMcpClient URL_scheme_gate docker_unset params_no_command [] =
    (Normal {| client := Some metamcp_client;
               transport := Some (StdioClientTransport server) |}, [])
    /\ createMetaMcpClient (fun s => inr s) docker_on
         {| name := "other"; type := Some "STDIO"; command := None;
            args := None; env := None; url := Some "not a url";
            oauth_tokens := Some {| access_token := "tok123" |} |} [] =
       (Normal {| client := Some metamcp_client;
                  transport := Some (StdioClientTransport server) |}, []).
Proof.
  destruct (createMetaMcpClient_stdio_ignores_http_fields
              URL_scheme_gate (fun s : string => @inr Exception string s)
              docker_unset docker_on params_no_command
              {| name := "other"; type := Some "STDIO"; command := None;
                 args := None; env := None; url := Some "not a url";
                 oauth_tokens := Some {| access_token := "tok123" |} |} [])
    as (server & H1 & H2 & _).
  - left. reflexivity.
  - right. reflexivity.
  - reflexivity.
  - reflexivity.
  - reflexivity.
  - exists server. split; assumption.
Defined.

Section FactoryEdges.

Context {URL : Type} (URL_new : string -> Exception + URL).
Implicit Types (process : ProcessEnv) (sp : ServerParameters) (w : World).

(** X5.  A type that is neither unset nor [STDIO] ends in the no-transport
    result with one error line that names the type, in two cases: the type
    is not [SSE] or [STREAMABLE_HTTP], or the [url] is missing or empty.  In
    the second case the line still calls the type unsupported.  The [URL]
    constructor and the environment flag play no part. *)
Theorem createMetaMcpClient_unsupported process sp w ty :
  type sp = Some ty -> ty <> "" -> ty <> "STDIO" ->
  (ty <> "SSE" /\ ty <> "STREAMABLE_HTTP") \/ truthy (url sp) = false ->
  createMetaMcpClient URL_new process sp w =
  (Normal {| client := None; transport := None |},
   (w ++ [ConsoleError ("Unsupported server type: " ++ ty)])%list).
Proof.
  intros Hty Hne Hstdio Hcase.
  unfold createMetaMcpClient. rewrite Hty.
  assert (H1 : negb (truthy (Some ty)) || strict_eq (Some ty) "STDIO" = false).
  { simpl. apply String.eqb_neq in Hne, Hstdio. now rewrite Hne, Hstdio. }
  rewrite H1.
  assert (H2 : forall lit, lit = "SSE" \/ lit = "STREAMABLE_HTTP" ->
                 and_truthy (strict_eq (Some ty) lit) (url sp) = None).
  { intros lit Hlit. unfold and_truthy.
    destruct (strict_eq (Some ty) lit) eqn:E; [|reflexivity].
    apply strict_eq_true in E. injection E as ->.
    destruct Hcase as [[Hsse Hhttp] | Hurl].
    - destruct Hlit; congruence.
    - destruct (url sp) as [s|]; [|reflexivity].
      simpl in Hurl. apply negb_false_iff in Hurl. now rewrite Hurl. }
  rewrite !H2 by auto. reflexivity.
Qed.

(** X6.  The credential never reaches the console and has no say in how a
    call completes: two inputs with the same [type] and [url] log the same
    lines, and throw together, the same exception. *)
Theorem createMetaMcpClient_credential_not_logged process sp sp' w :
  type sp = type sp' -> url sp = url sp' ->
  snd (createMetaMcpClient URL_new process sp w) =
  snd (createMetaMcpClient URL_new process sp' w)
  /\ forall error,
      fst (createMetaMcpClient URL_new process sp w) = Throw error <->
      fst (createMetaMcpClient URL_new process sp' w) = Throw error.
Proof.
  intros Hty Hurl. unfold createMetaMcpClient. rewrite <- Hty, <- Hurl.
  destruct (negb (truthy (type sp)) || strict_eq (type sp) "STDIO").
  { split; [reflexivity|]. intros error. split; discriminate. }
  destruct (and_truthy (strict_eq (type sp) "SSE") (url sp)) as [s|].
  { destruct (transformDockerUrl_logs process s w) as [line Hrun].
    unfold_M. rewrite Hrun.
    destruct (oauth_tokens sp), (oauth_tokens sp'),
      (URL_new (transformed process s)); simpl;
      (split; [reflexivity |
               intros; first [reflexivity | split; discriminate]]). }
  destruct (and_truthy (strict_eq (type sp) "STREAMABLE_HTTP") (url sp)) as [s|].
  { destruct (transformDockerUrl_logs process s w) as [line Hrun].
    unfold_M. rewrite Hrun.
    destruct (oauth_tokens sp), (oauth_tokens sp'),
      (URL_new (transformed process s)); simpl;
      (split; [reflexivity |
               intros; first [reflexivity | split; discriminate]]). }
  split; [reflexivity|]. intros error. split; discriminate.
Qed.

(** X7.  On the two HTTP branches the factory logs two lines, the second
    naming the transformed url, before it hands that url to the [URL]
    constructor: when the constructor throws, both lines are on the console
    already.  When it returns, the transport is of the class the type names,
    for the object the constructor returned, and the streamable transport
    never gets an [eventSourceInit]. *)
Theorem createMetaMcpClient_http_branch process sp w s :
  type sp = Some "SSE" \/ type sp = Some "STREAMABLE_HTTP" ->
  url sp = Some s -> s <> "" ->
  exists line,
    snd (createMetaMcpClient URL_new process sp w) =
    (w ++ [ConsoleLog line;
           ConsoleLog
             ((if strict_eq (type sp) "SSE"
               then "Creating SSE transport for: "
               else "Creating StreamableHTTP transport for: ")
              ++ transformed process s)])%list
    /\ match URL_new (transformed process s) with
       | inl error =>
           fst (createMetaMcpClient URL_new process sp w) = Throw error
       | inr u =>
           exists opts,
             fst (createMetaMcpClient URL_new process sp w) =
             Normal
               {| client := Some metamcp_client;
                  transport :=
                    Some (if strict_eq (type sp) "SSE"
                          then SSEClientTransport u opts
                          else StreamableHTTPClientTransport u opts) |}
             /\ (type sp = Some "STREAMABLE_HTTP" ->
                 forall o, opts = Some o -> eventSourceInit o = None)
       end.
Proof.
  intros Hty Hurl Hs.
  destruct (transformDockerUrl_logs process s w) as [line Hrun].
  exists line. unfold createMetaMcpClient.
  destruct Hty as [Hty | Hty].
  - rewrite (and_truthy_intro _ "SSE" s _ Hty Hurl Hs), Hty. simpl.
    unfold_M. rewrite Hrun.
    destruct (oauth_tokens sp), (URL_new (transformed process s)); simpl;
      rewrite <- app_assoc; (split; [reflexivity|]);
      try reflexivity; eexists; (split; [reflexivity | discriminate]).
  - rewrite (and_truthy_intro _ "STREAMABLE_HTTP" s _ Hty Hurl Hs), Hty. simpl.
    unfold_M. rewrite Hrun.
    destruct (oauth_tokens sp), (URL_new (transformed process s)); simpl;
      rewrite <- app_assoc; (split; [reflexivity|]);
      try reflexivity; eexists; (split; [reflexivity|]);
      intros _ given Hgiven;
      [injection Hgiven as <-; reflexivity | discriminate].
Qed.

(** X8.  Only the event-stream transport built with a credential has a
    fetch of its own.  That fetch forwards the address it is given and the
    other properties of [init], also when [init] is undefined, and replaces
    the headers of [init]: the call it makes carries the [Authorization]
    header and no other header, whatever headers [init] had. *)
Theorem createMetaMcpClient_event_source_fetch process sp w r w' t f :
  createMetaMcpClient URL_new process sp w = (Normal r, w') ->
  transport r = Some t ->
  event_source_fetch t = Some f ->
  exists tokens,
    oauth_tokens sp = Some tokens
    /\ type sp = Some "SSE"
    /\ forall input init,
        fetch_input (f input init) = input
        /\ other_properties (fetch_init (f input init)) =
           match init with
           | Some i => other_properties i
           | None => ∅
           end
        /\ exists h : gmap string string,
            headers (fetch_init (f input init)) = Some h
            /\ h !! "Authorization" = Some ("Bearer " ++ access_token tokens)
            /\ forall key, key <> "Authorization" -> h !! key = None.
Proof.
  unfold createMetaMcpClient.
  destruct (negb (truthy (type sp)) || strict_eq (type sp) "STDIO").
  { intros Hrun. injection Hrun as <- _. simpl.
    intros Ht. injection Ht as <-. discriminate. }
  destruct (and_truthy (strict_eq (type sp) "SSE") (url sp)) as [s|] eqn:Esse.
  { apply and_truthy_Some in Esse as (Hty & _ & _).
    apply strict_eq_true in Hty.
    destruct (transformDockerUrl_logs process s w) as [line Hrun].
    unfold_M. rewrite Hrun.
    destruct (oauth_tokens sp) as [tokens|],
      (URL_new (transformed process s)); simpl;
      intros Hr; try discriminate; injection Hr as <- _; simpl;
      intros Ht; injection Ht as <-; simpl; intros Hf; try discriminate.
    injection Hf as <-.
    exists tokens. split; [reflexivity|]. split; [exact Hty|].
    intros input init. split; [reflexivity|]. split; [reflexivity|].
    eexists. split; [reflexivity|].
    split; [apply lookup_insert_eq|].
    intros key Hkey. rewrite lookup_insert_ne by congruence.
    apply lookup_empty. }
  destruct (and_truthy (strict_eq (type sp) "STREAMABLE_HTTP") (url sp)) as [s|].
  { destruct (transformDockerUrl_logs process s w) as [line Hrun].
    unfold_M. rewrite Hrun.
    destruct (oauth_tokens sp) as [tokens|],
      (URL_new (transformed process s)); simpl;
      intros Hr; try discriminate; injection Hr as <- _; simpl;
      intros Ht; injection Ht as <-; discriminate. }
  unfold_M. simpl. intros Hr. injection Hr as <- _. discriminate.
Qed.

End FactoryEdges.

Lemma createMetaMcpClient_unsupported_witness :
  createMetaMcpClient URL_scheme_gate docker_unset
    {| name := "remote"; type := Some "SSE"; command := None; args := None;
       env := None; url := None; oauth_tokens := None |} [] =
  (Normal {| client := None; transport := None |},
   [ConsoleError "Unsupported server type: SSE"]).
Proof.
  apply (createMetaMcpClient_unsupported URL_scheme_gate docker_unset
           {| name := "remote"; type := Some "SSE"; command := None;
              args := None; env := None; url := None; oauth_tokens := None |}
           [] "SSE").
  - reflexivity.
  - discriminate.
  - discriminate.
  - right. reflexivity.
Defined.

Lemma createMetaMcpClient_credential_not_logged_witness :
  snd (createMetaMcpClient URL_scheme_gate docker_on params_sse_token []) =
  snd (createMetaMcpClient URL_scheme_gate docker_on
         {| name := "remote"; type := Some "SSE"; command := None;
            args := None; env := None;
            url := Some "http://localhost:3000/mcp";
            oauth_tokens := None |} []).
Proof.
  apply (createMetaMcpClient_credential_not_logged URL_scheme_gate docker_on
           params_sse_token
           {| name := "remote"; type := Some "SSE"; command := None;
              args := None; env := None;
              url := Some "http://localhost:3000/mcp";
              oauth_tokens := None |} []);
    reflexivity.
Defined.

Lemma createMetaMcpClient_http_branch_witness :
  exists line,
    snd (createMetaMcpClient URL_scheme_gate docker_unset
           params_sse_malformed []) =
    [ConsoleLog line; ConsoleLog "Creating SSE transport for: not a url"]
    /\ fst (createMetaMcpClient URL_scheme_gate docker_unset
              params_sse_malformed []) = Throw "TypeError: Invalid URL".
Proof.
  apply (createMetaMcpClient_http_branch URL_scheme_gate docker_unset
           params_sse_malformed [] "not a url").
  - left. reflexivity.
  - reflexivity.
  - discriminate.
Defined.

Lemma createMetaMcpClient_event_source_fetch_witness :
  exists tokens,
    oauth_tokens params_sse_token = Some tokens
    /\ type params_sse_token = Some "SSE".
Proof.
  pose (run := createMetaMcpClient URL_scheme_gate docker_on params_sse_token []).
  pose (r := match fst run with
             | Normal r => r
             | Throw _ => {| client := None; transport := None |}
             end).
  pose (t := match transport r with
             | Some t => t
             | None => echo_transport
             end).
  pose (f := match event_source_fetch t with
             | Some f => f
             | None => fun input _ =>
                         {| fetch_input := input;
                            fetch_init := spread_with_headers None ∅ |}
             end).
  destruct (createMetaMcpClient_event_source_fetch URL_scheme_gate docker_on
              params_sse_token [] r (snd run) t f eq_refl eq_refl eq_refl)
    as (tokens & Htokens & Hty & _).
  exists tokens. split; assumption.
Defined.

(* ===================================================================== *)
(** * Further properties of connectMetaMcpClient *)
(* ===================================================================== *)

Local Open Scope list_scope.

Section EstablisherBounds.

Context {URL : Type}.
Implicit Types (sdk : Sdk) (client : Client) (transport : Transport URL)
  (w : World).

(** X9.  Whatever the SDK answers, a call ends normally after at least one
    and at most [retries] connects.  It waits [waitFor] once after each
    close of the client and at no other time, at most twice, so never after
    the last connect; and it never closes the transport. *)
Theorem connectMetaMcpClient_bounded sdk client transport w :
  exists r new,
    connectMetaMcpClient sdk client transport w = (Normal r, w ++ new)
    /\ 1 <= calls is_ClientConnect new <= retries
    /\ S (calls is_ClientClose new) = calls is_ClientConnect new
    /\ sleeps new = repeat waitFor (calls is_ClientClose new)
    /\ sleeps (after_last_connect (w ++ new)) = []
    /\ calls is_TransportClose new = 0.
Proof.
  rewrite connectMetaMcpClient_cases. cbv zeta. unfold retries.
  destruct (connect_outcome sdk (calls is_ClientConnect w)) as [e0|].
  2:{ do 2 eexists. split; [reflexivity|]. simpl.
      rewrite after_last_connect_app by (simpl; lia).
      repeat split; lia. }
  destruct (connect_outcome sdk (S (calls is_ClientConnect w))) as [e1|].
  2:{ do 2 eexists. split; [reflexivity|]. simpl.
      rewrite after_last_connect_app by (simpl; lia).
      repeat split; lia. }
  destruct (connect_outcome sdk (S (S (calls is_ClientConnect w)))) as [e2|].
  - do 2 eexists. split; [reflexivity|]. simpl.
    rewrite after_last_connect_app by (simpl; lia).
    repeat split; lia.
  - do 2 eexists. split; [reflexivity|]. simpl.
    rewrite after_last_connect_app by (simpl; lia).
    repeat split; lia.
Qed.

(** X10.  A call returns a handle exactly when one of the first [retries]
    connects, counted from the call, succeeds; it returns [undefined]
    exactly when all of them throw. *)
Theorem connectMetaMcpClient_handle_iff sdk client transport w :
  ((exists connected,
       fst (connectMetaMcpClient sdk client transport w) =
       Normal (Some connected))
   <-> exists k,
         k < retries
         /\ connect_outcome sdk (calls is_ClientConnect w + k) = None)
  /\ (fst (connectMetaMcpClient sdk client transport w) = Normal None
      <-> forall k,
            k < retries ->
            connect_outcome sdk (calls is_ClientConnect w + k) <> None).
Proof.
  rewrite connectMetaMcpClient_cases. cbv zeta. unfold retries.
  set (n := calls is_ClientConnect w).
  assert (H0 : n + 0 = n) by lia.
  assert (H1 : n + 1 = S n) by lia.
  assert (H2 : n + 2 = S (S n)) by lia.
  destruct (connect_outcome sdk n) as [e0|] eqn:E0;
    [destruct (connect_outcome sdk (S n)) as [e1|] eqn:E1;
     [destruct (connect_outcome sdk (S (S n))) as [e2|] eqn:E2|]|];
    simpl.
  - split; split.
    + intros [connected H]. discriminate.
    + intros (k & Hk & Hok).
      destruct k as [|[|[|k]]]; [| | |lia];
        rewrite ?H0, ?H1, ?H2 in Hok; congruence.
    + intros _ k Hk.
      destruct k as [|[|[|k]]]; [| | |lia];
        rewrite ?H0, ?H1, ?H2; congruence.
    + reflexivity.
  - split; split.
    + intros _. exists 2. rewrite H2. split; [lia | exact E2].
    + eauto.
    + discriminate.
    + intros Hall. exfalso. apply (Hall 2); [lia | now rewrite H2].
  - split; split.
    + intros _. exists 1. rewrite H1. split; [lia | exact E1].
    + eauto.
    + discriminate.
    + intros Hall. exfalso. apply (Hall 1); [lia | now rewrite H1].
  - split; split.
    + intros _. exists 0. rewrite H0. split; [lia | exact E0].
    + eauto.
    + discriminate.
    + intros Hall. exfalso. apply (Hall 0); [lia | now rewrite H0].
Qed.

(** X11.  The closes made while retrying count for the cleanup of the
    handle.  After [k] failed connects and a successful one, the cleanup
    makes the same call of [transport.close()] it would have made before the
    call, and then the call of [client.close()] that comes [k] closes later:
    a mock of the client has seen [k + 1] closes after it, a mock of the
    transport one. *)
Theorem cleanup_after_retries sdk client transport w connected w' :
  connectMetaMcpClient sdk client transport w = (Normal (Some connected), w') ->
  exists k,
    k < retries
    /\ calls is_ClientConnect w' = calls is_ClientConnect w + S k
    /\ ConnectedClient.cleanup connected w' =
       match transport_close_outcome sdk (calls is_TransportClose w) with
       | Some error => (Throw error, w' ++ [TransportClose])
       | None =>
           (answer (client_close_outcome sdk (calls is_ClientClose w + k)),
            w' ++ [TransportClose; ClientClose])
       end
    /\ calls is_TransportClose (w' ++ [TransportClose; ClientClose]) =
       calls is_TransportClose w + 1
    /\ calls is_ClientClose (w' ++ [TransportClose; ClientClose]) =
       calls is_ClientClose w + k + 1.
Proof.
  rewrite connectMetaMcpClient_cases. cbv zeta. unfold retries.
  assert (Hone : forall w2,
    ConnectedClient.cleanup (connected_client sdk client) w2 =
    match transport_close_outcome sdk (calls is_TransportClose w2) with
    | Some error => (Throw error, w2 ++ [TransportClose])
    | None =>
        (answer (client_close_outcome sdk (calls is_ClientClose w2)),
         w2 ++ [TransportClose; ClientClose])
    end).
  { intros w2. simpl. unfold transport_close, client_close. unfold_M.
    destruct (transport_close_outcome sdk _); simpl; [reflexivity|].
    rewrite calls_app, Nat.add_0_r, <- app_assoc. reflexivity. }
  destruct (connect_outcome sdk (calls is_ClientConnect w)) as [e0|].
  2:{ intros H. injection H as <- <-. exists 0.
      rewrite Hone, !calls_app. simpl. rewrite !Nat.add_0_r.
      repeat split; lia. }
  destruct (connect_outcome sdk (S (calls is_ClientConnect w))) as [e1|].
  2:{ intros H. injection H as <- <-. exists 1.
      rewrite Hone, !calls_app. simpl. rewrite !Nat.add_0_r.
      repeat split; lia. }
  destruct (connect_outcome sdk (S (S (calls is_ClientConnect w)))) as [e2|].
  { discriminate. }
  intros H. injection H as <- <-. exists 2.
  rewrite Hone, !calls_app. simpl. rewrite !Nat.add_0_r.
  repeat split; lia.
Qed.

End EstablisherBounds.

Lemma cleanup_after_retries_witness :
  exists k,
    k < retries
    /\ calls is_ClientConnect
         (snd (connectMetaMcpClient sdk_third_attempt_quiet metamcp_client
                 echo_transport [])) = S k.
Proof.
  destruct (cleanup_after_retries sdk_third_attempt_quiet metamcp_client
              echo_transport []
              (connected_client sdk_third_attempt_quiet metamcp_client)
              (snd (connectMetaMcpClient sdk_third_attempt_quiet
                      metamcp_client echo_transport []))
              eq_refl)
    as (k & Hk & Hconnects & _).
  exists k. split; assumption.
Defined.

(** X12.  The factory only constructs: whatever the input and however the
    call completes, it adds at most two lines to the console and makes no
    call on a client or a transport and no wait, so the call counts the SDK
    objects see are those from before the call. *)
Theorem createMetaMcpClient_only_logs
    {URL : Type} (URL_new : string -> Exception + URL)
    (process : ProcessEnv) (sp : ServerParameters) (w : World) :
  exists lines,
    snd (createMetaMcpClient URL_new process sp w) = w ++ lines
    /\ length lines <= 2
    /\ calls is_ClientConnect lines = 0
    /\ calls is_ClientClose lines = 0
    /\ calls is_TransportClose lines = 0
    /\ sleeps lines = [].
Proof.
  unfold createMetaMcpClient.
  destruct (negb (truthy (type sp)) || strict_eq (type sp) "STDIO").
  { exists []. simpl. rewrite app_nil_r. repeat split; lia. }
  destruct (and_truthy (strict_eq (type sp) "SSE") (url sp)) as [s|].
  { destruct (transformDockerUrl_logs process s w) as [line Hrun].
    unfold_M. rewrite Hrun.
    destruct (oauth_tokens sp), (URL_new (transformed process s)); simpl;
      rewrite <- app_assoc; eexists; (split; [reflexivity|]);
      simpl; repeat split; lia. }
  destruct (and_truthy (strict_eq (type sp) "STREAMABLE_HTTP") (url sp)) as [s|].
  { destruct (transformDockerUrl_logs process s w) as [line Hrun].
    unfold_M. rewrite Hrun.
    destruct (oauth_tokens sp), (URL_new (transformed process s)); simpl;
      rewrite <- app_assoc; eexists; (split; [reflexivity|]);
      simpl; repeat split; lia. }
  unfold_M. simpl. eexists. split; [reflexivity|].
  simpl. repeat split; lia.
Qed.

Lemma connectMetaMcpClient_handle_iff_witness :
  fst (connectMetaMcpClient sdk_refusing metamcp_client echo_transport []) =
  Normal None.
Proof.
  apply (proj2 (connectMetaMcpClient_handle_iff sdk_refusing metamcp_client
                  echo_transport [])).
  intros k Hk. discriminate.
Defined.
